(** * The Airbnb dashboard callback of [app.py], embedded and verified

    The program loads a table of listings once, keeps it in a module-level
    global, and recomputes three figures and three KPI strings from three
    dropdown values in the callback [update_all].  A number is the rational
    it denotes ([Q]); the two pandas reductions that compute in binary64,
    [mean] and [quantile], are operations the callback is written over
    ([update_all_with]), with their exact-arithmetic versions as the
    reference instance ([update_all]).  A pandas frame is the list of its
    rows, in order; a figure is the record of the frame its plotting call was
    handed and of the layout updates applied to it, and the rows it draws are
    those that plotly express puts on a trace. *)

From Stdlib Require Import List Bool Arith ZArith NArith QArith Qround Qabs.
From Stdlib Require Import Qminmax Lia Lqa Sorted Permutation.
From Stdlib Require Import Strings.String Strings.Ascii Numbers.DecimalString.
From Stdlib Require Import Numbers.DecimalPos Numbers.DecimalN.
Import ListNotations.

Local Open Scope string_scope.
Local Open Scope Q_scope.

(** ** Data and configuration (lines 8-48) *)

(** One row of [airbnb_cleaned.csv]; text and coordinate cells may be null. *)
Record Listing : Type := mkListing {
  price : Q;
  neighbourhood_group : option string;
  room_type : option string;
  minimum_nights : Z;
  number_of_reviews : Z;
  latitude : option Q;
  longitude : option Q;
  neighbourhood : option string
}.

Definition DataFrame : Type := list Listing.

Definition PRICE_AXIS_MAX : Q := 600.

Definition AIRBNB_CORAL : string := "#FF5A5F".
Definition AIRBNB_CORAL_DARK : string := "#ff9286".
Definition AIRBNB_LIGHT_GREY : string := "#a3cef1".
Definition AIRBNB_MED_GREY : string := "#767676".
Definition AIRBNB_DARK : string := "#111111".

Definition borough_colors : list (string * string) :=
  [ ("Manhattan", AIRBNB_CORAL); ("Brooklyn", AIRBNB_CORAL_DARK);
    ("Queens", AIRBNB_LIGHT_GREY); ("Bronx", AIRBNB_MED_GREY);
    ("Staten Island", AIRBNB_DARK) ].

(** [a < b] on floats, as a boolean. *)
Definition Qlt_bool (a b : Q) : bool := negb (Qle_bool b a).

(** [df = df[df["price"] > 0].copy()] *)
Definition load (raw : DataFrame) : DataFrame :=
  filter (fun r => Qlt_bool 0 (price r)) raw.

(** [Series.dropna()] on a text column. *)
Fixpoint dropna {A : Type} (col : list (option A)) : list A :=
  match col with
  | [] => []
  | Some v :: rest => v :: dropna rest
  | None :: rest => dropna rest
  end.

Definition mem_string (s : string) (l : list string) : bool :=
  existsb (String.eqb s) l.

(** [Series.unique()]: first occurrences, in order of appearance. *)
Fixpoint unique_from (seen : list string) (l : list string) : list string :=
  match l with
  | [] => []
  | s :: rest =>
      if mem_string s seen then unique_from seen rest
      else s :: unique_from (s :: seen) rest
  end.

Definition unique (l : list string) : list string := unique_from [] l.

Fixpoint insert_sorted {A : Type} (le : A -> A -> bool) (x : A) (l : list A)
  : list A :=
  match l with
  | [] => [x]
  | y :: rest => if le x y then x :: l else y :: insert_sorted le x rest
  end.

(** [sorted(...)], by insertion. *)
Definition sorted {A : Type} (le : A -> A -> bool) (l : list A) : list A :=
  fold_right (insert_sorted le) [] l.

(** The value carried by the price-ceiling dropdown: the string ["none"] or a
    number. *)
Inductive PriceCeiling : Type :=
| none
| dollars (c : Q).

Definition price_ceiling_options : list (string * PriceCeiling) :=
  [ ("No limit", none); ("$200", dollars 200); ("$400", dollars 400);
    ("$600", dollars 600); ("$800", dollars 800); ("$1000", dollars 1000) ].

(** ** Module globals and the interpreter state *)

Record Globals : Type := mkGlobals {
  df : DataFrame;
  neigh_groups : list string;
  room_types : list string
}.

(** Lines 11-31, run once at import. *)
Definition startup (csv : DataFrame) : Globals :=
  let d := load csv in
  {| df := d;
     neigh_groups :=
       sorted String.leb (unique (dropna (map neighbourhood_group d)));
     room_types := sorted String.leb (unique (dropna (map room_type d))) |}.

(** A computation that may read and write the module globals. *)
Definition Py (A : Type) : Type := Globals -> A * Globals.

Definition ret {A : Type} (a : A) : Py A := fun g => (a, g).

Definition bind {A B : Type} (m : Py A) (k : A -> Py B) : Py B :=
  fun g => let (a, g') := m g in k a g'.

(** Reading a global name. *)
Definition global {A : Type} (name : Globals -> A) : Py A :=
  fun g => (name g, g).

(** [frame.copy()]: a fresh frame with the same rows. *)
Definition copy (frame : DataFrame) : Py DataFrame := ret frame.

Notation "x <- m ;; k" := (bind m (fun x => k))
  (at level 61, m at next level, right associativity).

(** ** Layout (lines 62-331): the three dropdowns *)

Record Dropdown (V : Type) : Type := mkDropdown {
  id : string;
  options : list (string * V);
  value : V;
  clearable : bool
}.
Arguments mkDropdown {V}.
Arguments id {V}.
Arguments options {V}.
Arguments value {V}.
Arguments clearable {V}.

Definition labelled (l : list string) : list (string * string) :=
  ("All", "All") :: map (fun g => (g, g)) l.

Definition global_neigh_group (g : Globals) : Dropdown string :=
  mkDropdown "global_neigh_group" (labelled (neigh_groups g)) "All" false.

Definition global_room_type (g : Globals) : Dropdown string :=
  mkDropdown "global_room_type" (labelled (room_types g)) "All" false.

Definition global_price_ceiling : Dropdown PriceCeiling :=
  mkDropdown "global_price_ceiling" price_ceiling_options (dollars 800) false.

(** ** pandas operations used by the callback *)

(** [series == v] on a text column: a null cell is never equal. *)
Definition cell_eqb (c : option string) (v : string) : bool :=
  match c with
  | Some s => String.eqb s v
  | None => false
  end.

Definition Qsum (l : list Q) : Q := fold_right Qplus 0 l.

(** [Series.mean()] in exact arithmetic: sum over count.  pandas computes it
    in binary64 and returns a float close to this value. *)
Definition mean (l : list Q) : Q :=
  Qsum l / inject_Z (Z.of_nat (List.length l)).

(** [Series.quantile(q)] in exact arithmetic: linear interpolation between
    order statistics.  pandas computes it in binary64. *)
Definition quantile (q : Q) (l : list Q) : Q :=
  let s := sorted Qle_bool l in
  let pos := q * inject_Z (Z.of_nat (List.length s) - 1) in
  let lo := Qfloor pos in
  let a := nth (Z.to_nat lo) s 0 in
  let b := nth (Z.to_nat (Qceiling pos)) s 0 in
  a + (b - a) * (pos - inject_Z lo).

Record GroupStats : Type := mkGroupStats {
  min_price : Q;
  q1_price : Q;
  median_price : Q;
  q3_price : Q;
  max_price : Q
}.

(** The two reductions of pandas whose results are binary64 numbers.  The
    callback is written over any implementation of them; a float is carried
    as the rational it denotes, so the sign of a zero is not kept. *)
Record Numerics : Type := mkNumerics {
  series_mean : list Q -> Q;
  series_quantile : Q -> list Q -> Q
}.

(** The reductions in exact arithmetic. *)
Definition exact : Numerics :=
  {| series_mean := mean; series_quantile := quantile |}.

(** The five aggregations of lines 409-415; ["min"] and ["max"] pick an
    element of the column. *)
Definition agg_with (num : Numerics) (prices : list Q) : GroupStats :=
  let s := sorted Qle_bool prices in
  {| min_price := hd 0 s;
     q1_price := series_quantile num (1 # 4) prices;
     median_price := series_quantile num (1 # 2) prices;
     q3_price := series_quantile num (3 # 4) prices;
     max_price := last s 0 |}.

Definition agg (prices : list Q) : GroupStats := agg_with exact prices.

(** [data.groupby("neighbourhood_group")["price"].agg(...).reset_index()]:
    one row per non-null key, keys in sorted order. *)
Definition group_stats_with (num : Numerics) (data : DataFrame)
  : list (string * GroupStats) :=
  map (fun k =>
         (k, agg_with num
               (map price
                  (filter (fun r => cell_eqb (neighbourhood_group r) k) data))))
      (sorted String.leb (unique (dropna (map neighbourhood_group data)))).

Definition group_stats (data : DataFrame) : list (string * GroupStats) :=
  group_stats_with exact data.

Fixpoint lookup {A : Type} (k : string) (l : list (string * A)) : option A :=
  match l with
  | [] => None
  | (k', v) :: rest => if String.eqb k' k then Some v else lookup k rest
  end.

(** [data.merge(stats, on="neighbourhood_group", how="left")]: every row of
    [data] is kept, with the statistics of its group when there is one. *)
Definition merge_left (data : DataFrame) (stats : list (string * GroupStats))
  : list (Listing * option GroupStats) :=
  map (fun r =>
         (r, match neighbourhood_group r with
             | Some k => lookup k stats
             | None => None
             end)) data.

(** [data.dropna(subset=["latitude", "longitude"])] keeps a row when both
    cells are present. *)
Definition has_coordinates (r : Listing) : bool :=
  match latitude r, longitude r with
  | Some _, Some _ => true
  | _, _ => false
  end.

(** ** Python number formatting *)

Definition digits (n : N) : string := NilZero.string_of_uint (N.to_uint n).

(** Thousands separators, inserted from the least significant digit. *)
Fixpoint group3 (rev_digits : list ascii) : list ascii :=
  match rev_digits with
  | a :: b :: c :: ((_ :: _) as rest) =>
      a :: b :: c :: ","%char :: group3 rest
  | _ => rev_digits
  end.

Definition thousands (s : string) : string :=
  string_of_list_ascii (rev (group3 (rev (list_ascii_of_string s)))).

(** Rounding to an integer, ties to even, as the [f] presentation does. *)
Definition round_half_even (x : Q) : Z :=
  let f := Qfloor x in
  match Qcompare (x - inject_Z f)%Q (1 # 2)%Q with
  | Lt => f
  | Gt => (f + 1)%Z
  | Eq => if Z.even f then f else (f + 1)%Z
  end.

(** The last [prec] decimal digits of [m]. *)
Fixpoint frac_digits (prec : nat) (m : N) : string :=
  match prec with
  | O => ""
  | S p => frac_digits p (m / 10)%N ++ digits (m mod 10)%N
  end.

(** [format(x, ",.<prec>f")] when [comma], [format(x, ".<prec>f")] otherwise. *)
Definition format_f (comma : bool) (prec : nat) (x : Q) : string :=
  let scale := (10 ^ N.of_nat prec)%N in
  let m := Z.to_N (Z.abs (round_half_even (x * inject_Z (Z.of_N scale)))) in
  let whole := digits (m / scale)%N in
  (if Qlt_bool x 0 then "-" else "")
  ++ (if comma then thousands whole else whole)
  ++ match prec with
     | O => ""
     | S _ => "." ++ frac_digits prec m
     end.

(** [format(n, ",")] on an integer. *)
Definition format_d (n : Z) : string :=
  (if (n <? 0)%Z then "-" else "") ++ thousands (digits (Z.to_N (Z.abs n))).

(** [min(a, b)]: the first argument unless the second is strictly smaller. *)
Definition py_min (a b : Q) : Q := if Qlt_bool b a then b else a.

(** ** Figures *)

Record Axis : Type := mkAxis {
  visible : bool;
  range : option (Q * Q);
  fixedrange : bool;
  axis_title : option string;
  tickangle : option Z
}.

Definition default_axis : Axis :=
  {| visible := true; range := None; fixedrange := false; axis_title := None;
     tickangle := None |}.

(** [dict(l=..., r=..., t=..., b=...)] *)
Record Margin : Type := mkMargin {
  margin_l : Z;
  margin_r : Z;
  margin_t : Z;
  margin_b : Z
}.

(** The plotting call that made the figure, with the frame it was given. *)
Inductive Trace : Type :=
| px_scatter
| px_histogram (data_frame : DataFrame) (nbins : Z) (opacity : Q)
               (barmode : string) (color_discrete_map : list (string * string))
| px_violin (data_frame : list (Listing * option GroupStats))
            (box points : bool) (color_discrete_map : list (string * string))
            (category_orders : list string)
| px_scatter_mapbox (data_frame : DataFrame)
                    (color_discrete_map : list (string * string))
                    (size_max : Z) (zoom : Q) (center : Q * Q)
                    (mapbox_style : string) (marker_opacity : Q).

Record Figure : Type := mkFigure {
  trace : Trace;
  title : option string;
  xaxis : Axis;
  yaxis : Axis;
  template : option string;
  height : Z;
  margin : option Margin;
  legend_title : option string;
  dragmode : option bool;
  hovermode : option string;
  showlegend : option bool
}.

(** The rows of the frame a figure's plotting call was handed. *)
Definition rows_of (f : Figure) : DataFrame :=
  match trace f with
  | px_scatter => []
  | px_histogram d _ _ _ _ => d
  | px_violin d _ _ _ _ => map fst d
  | px_scatter_mapbox d _ _ _ _ _ _ => d
  end.

Definition upper (a : Axis) : option Q := option_map snd (range a).

Record Outputs : Type := mkOutputs {
  price_hist : Figure;
  price_violin : Figure;
  listing_map : Figure;
  kpi_avg_price : string;
  kpi_num_listings : string;
  kpi_avg_min_nights : string
}.

(** ** The callback (lines 347-507) *)

(** Lines 350-351. *)
Definition select_neigh_group (neigh_group : string) (data : DataFrame)
  : DataFrame :=
  if negb (String.eqb neigh_group "All")
  then filter (fun r => cell_eqb (neighbourhood_group r) neigh_group) data
  else data.

(** Lines 353-354. *)
Definition select_room_type (room_type' : string) (data : DataFrame)
  : DataFrame :=
  if negb (String.eqb room_type' "All")
  then filter (fun r => cell_eqb (room_type r) room_type') data
  else data.

(** Lines 356-357. *)
Definition select_price (price_ceiling : PriceCeiling) (data : DataFrame)
  : DataFrame :=
  match price_ceiling with
  | none => data
  | dollars c => filter (fun r => Qle_bool (price r) c) data
  end.

(** Lines 360-366. *)
Definition empty_fig : Figure :=
  {| trace := px_scatter;
     title := Some "No data for selected filters";
     xaxis := {| visible := false; range := None; fixedrange := false;
                 axis_title := None; tickangle := None |};
     yaxis := {| visible := false; range := None; fixedrange := false;
                 axis_title := None; tickangle := None |};
     template := Some "simple_white";
     height := 220;
     margin := None;
     legend_title := None;
     dragmode := None;
     hovermode := None;
     showlegend := None |}.

(** Lines 378-380. *)
Definition base_cap (price_ceiling : PriceCeiling) : Q :=
  match price_ceiling with
  | none => 800
  | dollars c => py_min 800 c
  end.

Definition update_all_with (num : Numerics) (neigh_group room_type' : string)
  (price_ceiling : PriceCeiling) : Py Outputs :=
  frame <- global df ;;
  data <- copy frame ;;
  let data := select_neigh_group neigh_group data in
  let data := select_room_type room_type' data in
  let data := select_price price_ceiling data in
  match data with
  | [] => ret (mkOutputs empty_fig empty_fig empty_fig "N/A" "N/A" "N/A")
  | _ :: _ =>
      let avg_price := series_mean num (map price data) in
      let num_listings := Z.of_nat (List.length data) in
      let avg_min_nights :=
        series_mean num (map (fun r => inject_Z (minimum_nights r)) data) in
      let kpi_avg_price := "$" ++ format_f true 0 avg_price in
      let kpi_num_listings := format_d num_listings in
      let kpi_avg_min_nights := format_f false 1 avg_min_nights ++ " nights" in
      (* Histogram *)
      let cap := base_cap price_ceiling in
      let hist_data := filter (fun r => Qle_bool (price r) cap) data in
      let hist_fig :=
        {| trace := px_histogram hist_data 50 (8 # 10) "overlay" borough_colors;
           title := None;
           xaxis := {| visible := true; range := Some (0, cap);
                       fixedrange := true;
                       axis_title := Some "Nightly Price (USD)";
                       tickangle := None |};
           yaxis := {| visible := true; range := None; fixedrange := true;
                       axis_title := Some "Number of Listings";
                       tickangle := None |};
           template := Some "simple_white";
           height := 220;
           margin := Some (mkMargin 40 5 10 30);
           legend_title := Some "Neighbourhood Group";
           dragmode := Some false;
           hovermode := Some "closest";
           showlegend := Some true |} in
      (* Violin + stats hover *)
      let stats := group_stats_with num data in
      let data_violin := merge_left data stats in
      groups <- global neigh_groups ;;
      let violin_fig :=
        {| trace := px_violin data_violin true false borough_colors groups;
           title := None;
           xaxis := {| visible := true; range := None; fixedrange := false;
                       axis_title := Some "Neighbourhood Group";
                       tickangle := Some 0%Z |};
           yaxis := {| visible := true; range := Some (0, PRICE_AXIS_MAX);
                       fixedrange := true;
                       axis_title := Some "Nightly Price (USD)";
                       tickangle := None |};
           template := Some "simple_white";
           height := 220;
           margin := Some (mkMargin 40 5 10 40);
           legend_title := Some "Neighbourhood Group";
           dragmode := Some false;
           hovermode := Some "closest";
           showlegend := Some true |} in
      (* Map *)
      map_data <- copy (filter has_coordinates data) ;;
      let map_fig :=
        {| trace :=
             px_scatter_mapbox map_data borough_colors 8 (98 # 10)
               (407128 # 10000, - (740060 # 10000)) "carto-positron" (6 # 10);
           title := None;
           xaxis := default_axis;
           yaxis := default_axis;
           template := None;
           height := 260;
           margin := Some (mkMargin 0 0 10 0);
           legend_title := Some "Neighbourhood Group";
           dragmode := None;
           hovermode := None;
           showlegend := None |} in
      ret (mkOutputs hist_fig violin_fig map_fig
             kpi_avg_price kpi_num_listings kpi_avg_min_nights)
  end.

(** The callback with the reductions in exact arithmetic. *)
Definition update_all (neigh_group room_type' : string)
  (price_ceiling : PriceCeiling) : Py Outputs :=
  update_all_with exact neigh_group room_type' price_ceiling.

(** The callback as a function of the globals it runs against. *)
Definition outputs_with (num : Numerics) (g : Globals)
  (neigh_group room_type' : string) (price_ceiling : PriceCeiling) : Outputs :=
  fst (update_all_with num neigh_group room_type' price_ceiling g).

Definition outputs (g : Globals) (neigh_group room_type' : string)
  (price_ceiling : PriceCeiling) : Outputs :=
  fst (update_all neigh_group room_type' price_ceiling g).

(** Lines 348-357: the frame the rest of the callback works on. *)
Definition filtered (g : Globals) (neigh_group room_type' : string)
  (price_ceiling : PriceCeiling) : DataFrame :=
  select_price price_ceiling
    (select_room_type room_type' (select_neigh_group neigh_group (df g))).

(** What the callback returns when nothing matches (line 367). *)
Definition sentinel : Outputs :=
  mkOutputs empty_fig empty_fig empty_fig "N/A" "N/A" "N/A".

(** The first invocation, made by the framework with the dropdowns'
    initial values. *)
Definition initial_view (g : Globals) : Outputs :=
  outputs g (value (global_neigh_group g)) (value (global_room_type g))
    (value global_price_ceiling).

(** ** Reading the KPI strings back *)

Definition is_digit (a : ascii) : bool :=
  (48 <=? nat_of_ascii a)%nat && (nat_of_ascii a <=? 57)%nat.

Definition not_comma (a : ascii) : bool := negb (Ascii.eqb a ",").

(** [s.replace(",", "")] *)
Definition remove_commas (s : string) : string :=
  string_of_list_ascii (filter not_comma (list_ascii_of_string s)).

Definition read_nat (s : string) : option N :=
  option_map N.of_uint (NilZero.uint_of_string s).

(** A decimal numeral with an optional leading minus sign. *)
Definition read_signed (s : string) : option Z :=
  match s with
  | String a r =>
      if Ascii.eqb a "-" then option_map (fun n => (- Z.of_N n)%Z) (read_nat r)
      else option_map Z.of_N (read_nat s)
  | EmptyString => None
  end.

(** [int(s.replace(",", ""))] *)
Definition read_int (s : string) : option Z := read_signed (remove_commas s).

(** The whole amount shown by ["$1,234"]. *)
Definition read_money (s : string) : option Z :=
  match s with
  | String a r => if Ascii.eqb a "$" then read_int r else None
  | EmptyString => None
  end.

(** The number of tenths shown by ["12.3 nights"]: the whole part, the one
    digit after the point, and the sign in front. *)
Definition read_nights (s : string) : option Z :=
  match rev (list_ascii_of_string s) with
  | s7 :: s6 :: s5 :: s4 :: s3 :: s2 :: s1 :: d :: dot :: w =>
      if String.eqb (string_of_list_ascii [s1; s2; s3; s4; s5; s6; s7]) " nights"
         && Ascii.eqb dot "." && is_digit d
      then
        let k := N.of_nat (nat_of_ascii d - 48) in
        match rev w with
        | a :: u =>
            if Ascii.eqb a "-"
            then option_map (fun n => (- Z.of_N (10 * n + k))%Z)
                   (read_nat (string_of_list_ascii u))
            else option_map (fun n => Z.of_N (10 * n + k))
                   (read_nat (string_of_list_ascii (a :: u)))
        | [] => None
        end
      else None
  | _ => None
  end.



(** ** Vocabulary of the specification *)

(** The hidden-axes "No data for selected filters" figure. *)
Definition placeholder (f : Figure) : Prop :=
  trace f = px_scatter
  /\ title f = Some "No data for selected filters"
  /\ visible (xaxis f) = false
  /\ visible (yaxis f) = false.

(** The three predicates of the filter, each switched off by its
    "match all" value. *)
Definition region_ok (neigh_group : string) (r : Listing) : bool :=
  String.eqb neigh_group "All" || cell_eqb (neighbourhood_group r) neigh_group.

Definition room_ok (room_type' : string) (r : Listing) : bool :=
  String.eqb room_type' "All" || cell_eqb (room_type r) room_type'.

Definition price_ok (price_ceiling : PriceCeiling) (r : Listing) : bool :=
  match price_ceiling with
  | none => true
  | dollars c => Qle_bool (price r) c
  end.

Definition matches (neigh_group room_type' : string)
  (price_ceiling : PriceCeiling) (r : Listing) : bool :=
  region_ok neigh_group r && room_ok room_type' r && price_ok price_ceiling r.

(** A sequence of invocations of the callback, each with its own filter
    tuple, run one after the other on the same interpreter. *)
Fixpoint run_calls (calls : list (string * string * PriceCeiling))
  : Py (list Outputs) :=
  match calls with
  | [] => ret []
  | (ng, rt, pc) :: rest =>
      o <- update_all ng rt pc ;;
      os <- run_calls rest ;;
      ret (o :: os)
  end.

(** Sample tables used to exercise the statements. *)
Definition sample_csv : DataFrame :=
  [ mkListing 900 (Some "Manhattan") (Some "Entire home/apt") 3 12
      (Some (407 # 10)) (Some (- (740 # 10))) (Some "Midtown");
    mkListing 100 (Some "Brooklyn") (Some "Private room") 2 40
      None (Some (- (739 # 10))) (Some "Bushwick");
    mkListing 150 None (Some "Private room") 30 0
      (Some (406 # 10)) None None;
    mkListing 0 (Some "Queens") (Some "Shared room") 1 1
      (Some (407 # 10)) (Some (- (738 # 10))) (Some "Astoria") ].

Definition sample : Globals := startup sample_csv.

(** A row whose region cell is null. *)
Definition null_region (r : Listing) : bool :=
  match neighbourhood_group r with
  | None => true
  | Some _ => false
  end.

(** The values a dropdown offers. *)
Definition option_values {V : Type} (d : Dropdown V) : list V :=
  map snd (options d).

(** Ascending with no two equal neighbours. *)
Definition ascending (l : list string) : Prop :=
  Sorted (fun a b => String.ltb a b = true) l.

(** The frame a violin figure was handed, statistics columns included. *)
Definition violin_frame (f : Figure) : list (Listing * option GroupStats) :=
  match trace f with
  | px_violin d _ _ _ _ => d
  | _ => []
  end.

(** The category order a violin figure was handed. *)
Definition violin_categories (f : Figure) : list string :=
  match trace f with
  | px_violin _ _ _ _ cats => cats
  | _ => []
  end.

(** The price column of the rows of one region. *)
Definition group_prices (k : string) (data : DataFrame) : list Q :=
  map price (filter (fun r => cell_eqb (neighbourhood_group r) k) data).

(** The order the price sort compares by. *)
Definition Qleb_rel (a b : Q) : Prop := Qle_bool a b = true.

(** A row with a region. *)
Definition has_region (r : Listing) : bool := negb (null_region r).

(** plotly express, called with [color="neighbourhood_group"], makes one trace
    per region found in the frame it is handed: the names listed in
    [category_orders] first, then the others in order of first appearance.  A
    row whose region cell is null belongs to no trace. *)
Definition trace_names (orders : list string) (d : DataFrame) : list string :=
  let present := unique (dropna (map neighbourhood_group d)) in
  filter (fun k => mem_string k present) (unique (orders ++ present)).

Definition px_traces (orders : list string) (d : DataFrame)
  : list (string * DataFrame) :=
  map (fun k =>
         (k, filter (fun r => cell_eqb (neighbourhood_group r) k) d))
      (trace_names orders d).

(** The rows a figure draws: those on its traces. *)
Definition drawn_rows (f : Figure) : DataFrame :=
  match trace f with
  | px_scatter => []
  | px_histogram d _ _ _ _ => List.concat (map snd (px_traces [] d))
  | px_violin d _ _ _ cats => List.concat (map snd (px_traces cats (map fst d)))
  | px_scatter_mapbox d _ _ _ _ _ _ => List.concat (map snd (px_traces [] d))
  end.



(** The upper end the specification gives the histogram's x axis. *)
Definition spec_cap (price_ceiling : PriceCeiling) : Q :=
  match price_ceiling with
  | none => 800
  | dollars c => Qmin 800 c
  end.


(** * Properties *)

(** ** Strings and numerals *)

Lemma list_ascii_of_string_app (a b : string) :
  list_ascii_of_string (a ++ b)
  = (list_ascii_of_string a ++ list_ascii_of_string b)%list.
Proof.
  induction a as [|c a IH]; simpl; [reflexivity | now rewrite IH].
Qed.

Lemma string_of_list_ascii_app (a b : list ascii) :
  string_of_list_ascii (a ++ b)
  = string_of_list_ascii a ++ string_of_list_ascii b.
Proof.
  induction a as [|c a IH]; simpl; [reflexivity | now rewrite IH].
Qed.

Lemma to_uint_nonnil (n : N) : N.to_uint n <> Decimal.Nil.
Proof.
  destruct n as [|p]; simpl.
  - discriminate.
  - apply DecimalPos.Unsigned.to_uint_nonnil.
Qed.

Lemma digits_unfold (n : N) :
  digits n = NilEmpty.string_of_uint (N.to_uint n).
Proof.
  unfold digits, NilZero.string_of_uint.
  pose proof (to_uint_nonnil n) as H.
  destruct (N.to_uint n); [contradiction | reflexivity ..].
Qed.

Lemma uint_chars_digits (d : Decimal.uint) :
  Forall (fun a => is_digit a = true)
         (list_ascii_of_string (NilEmpty.string_of_uint d)).
Proof.
  induction d; simpl; constructor; (reflexivity || assumption).
Qed.

Lemma digits_chars (n : N) :
  Forall (fun a => is_digit a = true) (list_ascii_of_string (digits n)).
Proof. rewrite digits_unfold. apply uint_chars_digits. Qed.

Lemma read_nat_digits (n : N) : read_nat (digits n) = Some n.
Proof.
  unfold read_nat, digits.
  rewrite NilZero.usu by apply to_uint_nonnil.
  simpl. now rewrite DecimalN.Unsigned.of_to.
Qed.

Lemma digits_head (n : N) :
  exists a r, digits n = String a r /\ is_digit a = true.
Proof.
  pose proof (digits_chars n) as Hc.
  pose proof (read_nat_digits n) as Hr.
  destruct (digits n) as [|a r].
  - discriminate Hr.
  - exists a, r. split; [reflexivity |]. now inversion Hc.
Qed.

Lemma digit_not_minus (a : ascii) :
  is_digit a = true -> Ascii.eqb a "-" = false.
Proof.
  intros H. destruct (Ascii.eqb_spec a "-") as [->|]; [discriminate H | reflexivity].
Qed.

Lemma digit_not_comma (a : ascii) : is_digit a = true -> not_comma a = true.
Proof.
  intros H. unfold not_comma.
  destruct (Ascii.eqb_spec a ",") as [->|]; [discriminate H | reflexivity].
Qed.

Lemma read_signed_digits (n : N) : read_signed (digits n) = Some (Z.of_N n).
Proof.
  destruct (digits_head n) as (a & r & E & Ha).
  unfold read_signed. rewrite E, (digit_not_minus _ Ha), <- E.
  now rewrite read_nat_digits.
Qed.

Lemma read_signed_minus (n : N) :
  read_signed ("-" ++ digits n) = Some (- Z.of_N n)%Z.
Proof. simpl. now rewrite read_nat_digits. Qed.

(** The sign and magnitude that the formatters print denote the number. *)
Lemma read_signed_sign (neg : bool) (n : N) :
  read_signed ((if neg then "-" else "") ++ digits n)
  = Some (if neg then (- Z.of_N n)%Z else Z.of_N n).
Proof.
  destruct neg; [apply read_signed_minus | apply read_signed_digits].
Qed.

(** ** Thousands separators *)

Lemma list_ind3 {A : Type} (P : list A -> Prop) :
  P [] -> (forall a, P [a]) -> (forall a b, P [a; b]) ->
  (forall a b c, P [a; b; c]) ->
  (forall a b c d rest, P (d :: rest) -> P (a :: b :: c :: d :: rest)) ->
  forall l, P l.
Proof.
  intros H0 H1 H2 H3 Hstep l.
  assert (G : forall n l, (List.length l <= n)%nat -> P l).
  { induction n as [|n IH]; intros k Hk.
    - destruct k; [exact H0 | simpl in Hk; lia].
    - destruct k as [|a [|b [|c [|d rest]]]]; auto.
      apply Hstep, IH. simpl in Hk |- *. lia. }
  apply (G (List.length l)). lia.
Qed.

Lemma group3_remove (l : list ascii) :
  Forall (fun a => is_digit a = true) l ->
  filter not_comma (group3 l) = l.
Proof.
  induction l as [| a | a b | a b c | a b c d rest IH] using list_ind3;
    intros H.
  - reflexivity.
  - inversion_clear H. simpl. now rewrite digit_not_comma.
  - inversion_clear H as [|? ? Ha H']. inversion_clear H' as [|? ? Hb _].
    simpl. now rewrite !digit_not_comma.
  - inversion_clear H as [|? ? Ha H']. inversion_clear H' as [|? ? Hb H''].
    inversion_clear H'' as [|? ? Hc _].
    simpl. now rewrite !digit_not_comma.
  - inversion_clear H as [|? ? Ha H']. inversion_clear H' as [|? ? Hb H''].
    inversion_clear H'' as [|? ? Hc Hr].
    change (group3 (a :: b :: c :: d :: rest))
      with (a :: b :: c :: ","%char :: group3 (d :: rest)).
    cbn [filter]. rewrite !digit_not_comma by assumption.
    change (not_comma ",") with false. cbv iota.
    now rewrite IH.
Qed.


Lemma Forall_rev_digits (l : list ascii) :
  Forall (fun a => is_digit a = true) l ->
  Forall (fun a => is_digit a = true) (rev l).
Proof.
  intros H. apply Forall_forall. intros a Ha.
  apply in_rev in Ha. revert a Ha. now apply Forall_forall.
Qed.

Lemma filter_rev {A : Type} (f : A -> bool) (l : list A) :
  filter f (rev l) = rev (filter f l).
Proof.
  induction l as [|a l IH]; simpl; [reflexivity |].
  rewrite filter_app, IH. simpl. destruct (f a); simpl.
  - reflexivity.
  - now rewrite List.app_nil_r.
Qed.

Lemma remove_commas_thousands (s : string) :
  Forall (fun a => is_digit a = true) (list_ascii_of_string s) ->
  remove_commas (thousands s) = s.
Proof.
  intros H. unfold remove_commas, thousands.
  rewrite list_ascii_of_string_of_list_ascii, filter_rev.
  rewrite group3_remove by now apply Forall_rev_digits.
  now rewrite rev_involutive, string_of_list_ascii_of_string.
Qed.

Lemma remove_commas_app (a b : string) :
  remove_commas (a ++ b) = remove_commas a ++ remove_commas b.
Proof.
  unfold remove_commas.
  now rewrite list_ascii_of_string_app, filter_app, string_of_list_ascii_app.
Qed.

Lemma remove_commas_sign (neg : bool) (n : N) :
  remove_commas ((if neg then "-" else "") ++ thousands (digits n))
  = (if neg then "-" else "") ++ digits n.
Proof.
  rewrite remove_commas_app, remove_commas_thousands by apply digits_chars.
  now destruct neg.
Qed.


(** [format(n, ",")] reads back as [n]. *)
Lemma read_int_format_d (n : Z) : read_int (format_d n) = Some n.
Proof.
  unfold read_int, format_d.
  rewrite remove_commas_sign, read_signed_sign. f_equal.
  destruct (Z.ltb_spec n 0); lia.
Qed.

(** ** Rounding *)

Lemma Qfloor_bounds (x : Q) :
  inject_Z (Qfloor x) <= x /\ x < inject_Z (Qfloor x) + 1.
Proof.
  split; [apply Qfloor_le |].
  pose proof (Qlt_floor x) as H. rewrite inject_Z_plus in H. exact H.
Qed.


Lemma round_half_even_comp (x y : Q) :
  x == y -> round_half_even x = round_half_even y.
Proof.
  intros E. unfold round_half_even.
  rewrite (Qfloor_comp x y E).
  assert (C : Qcompare (x - inject_Z (Qfloor y)) (1 # 2)
              = Qcompare (y - inject_Z (Qfloor y)) (1 # 2)).
  { apply Qcompare_comp; [now rewrite E | reflexivity]. }
  now rewrite C.
Qed.

Lemma round_half_even_bounds (x : Q) :
  (Qfloor x <= round_half_even x <= Qfloor x + 1)%Z.
Proof.
  unfold round_half_even.
  destruct (Qcompare _ _); [destruct (Z.even _) | |]; lia.
Qed.

(** The printed sign is the sign of the value, the printed magnitude is the
    magnitude of the rounded value. *)
Lemma round_half_even_sign (x y : Q) :
  (0 <= x <-> 0 <= y) ->
  (if Qlt_bool x 0
   then (- Z.of_N (Z.to_N (Z.abs (round_half_even y))))%Z
   else Z.of_N (Z.to_N (Z.abs (round_half_even y))))
  = round_half_even y.
Proof.
  intros Hs.
  pose proof (round_half_even_bounds y) as [Hlo Hhi].
  destruct (Qfloor_bounds y) as [Flo Fhi].
  unfold Qlt_bool. destruct (Qle_bool 0 x) eqn:E; simpl.
  - apply Qle_bool_iff, Hs in E.
    assert (0 <= Qfloor y)%Z.
    { change 0%Z with (Qfloor 0). now apply Qfloor_resp_le. }
    lia.
  - assert (N : ~ 0 <= y).
    { intros C. apply Hs, Qle_bool_iff in C. congruence. }
    assert (Qfloor y < 0)%Z.
    { apply Z.lt_nge. intros C. apply N.
      apply Qle_trans with (inject_Z (Qfloor y)); [| exact Flo].
      change 0 with (inject_Z 0). now rewrite <- Zle_Qle. }
    lia.
Qed.

Lemma append_empty_r (s : string) : s ++ "" = s.
Proof. induction s as [|a s IH]; simpl; [reflexivity | now rewrite IH]. Qed.

Lemma append_assoc_r (a b c : string) : (a ++ b) ++ c = a ++ b ++ c.
Proof. induction a as [|x a IH]; simpl; [reflexivity | now rewrite IH]. Qed.

(** The whole-dollar amount printed for [x] is [x] rounded to a nearest
    integer. *)
Lemma read_money_format (x : Q) :
  read_money ("$" ++ format_f true 0 x) = Some (round_half_even x).
Proof.
  unfold format_f. cbn [N.of_nat N.pow]. change (10 ^ 0)%N with 1%N.
  rewrite N.div_1_r, append_empty_r.
  cbn [append read_money]. change (Ascii.eqb "$" "$") with true. cbv iota.
  unfold read_int. rewrite remove_commas_sign, read_signed_sign. f_equal.
  assert (E : x * inject_Z (Z.of_N 1) == x).
  { change (inject_Z (Z.of_N 1)) with 1. ring. }
  rewrite (round_half_even_comp _ _ E).
  apply round_half_even_sign. tauto.
Qed.

Lemma digit_single (k : N) :
  (k < 10)%N ->
  exists d, digits k = String d ""
            /\ is_digit d = true /\ N.of_nat (nat_of_ascii d - 48) = k.
Proof.
  intros H.
  assert (C : (k = 0 \/ k = 1 \/ k = 2 \/ k = 3 \/ k = 4 \/ k = 5 \/ k = 6
               \/ k = 7 \/ k = 8 \/ k = 9)%N) by lia.
  repeat (destruct C as [-> | C]); try subst k;
    eexists; (split; [reflexivity | split; reflexivity]).
Qed.

Lemma read_nights_parts (neg : bool) (q k : N) :
  (k < 10)%N ->
  read_nights ((if neg then "-" else "")
               ++ digits q ++ "." ++ digits k ++ " nights")
  = Some (if neg then (- Z.of_N (10 * q + k))%Z else Z.of_N (10 * q + k)).
Proof.
  intros Hk. destruct (digit_single k Hk) as (d & Ed & Hd & Vd).
  unfold read_nights. rewrite Ed.
  rewrite !list_ascii_of_string_app.
  change (list_ascii_of_string ".") with ["."%char].
  change (list_ascii_of_string (String d "" ++ " nights"))
    with ([d] ++ list_ascii_of_string " nights")%list.
  rewrite !rev_app_distr. cbn [list_ascii_of_string rev List.app].
  change (string_of_list_ascii [" "; "n"; "i"; "g"; "h"; "t"; "s"]%char)
    with " nights".
  rewrite String.eqb_refl, Hd. change (Ascii.eqb "." ".") with true.
  cbn [andb]. rewrite Vd, rev_app_distr, !rev_involutive.
  destruct neg.
  - cbn [list_ascii_of_string List.app]. change (Ascii.eqb "-" "-") with true.
    cbv iota. rewrite string_of_list_ascii_of_string, read_nat_digits.
    reflexivity.
  - cbn [list_ascii_of_string List.app].
    destruct (digits_head q) as (a & r & E & Ha).
    rewrite E. cbn [list_ascii_of_string]. rewrite (digit_not_minus _ Ha).
    change (a :: list_ascii_of_string r) with (list_ascii_of_string (String a r)).
    rewrite <- E, string_of_list_ascii_of_string, read_nat_digits.
    reflexivity.
Qed.

(** The amount printed with one decimal is [x] rounded to a nearest tenth. *)
Lemma read_nights_format (x : Q) :
  read_nights (format_f false 1 x ++ " nights")
  = Some (round_half_even (x * 10)).
Proof.
  unfold format_f. change (10 ^ N.of_nat 1)%N with 10%N.
  change (inject_Z (Z.of_N 10)) with 10.
  set (m := Z.to_N (Z.abs (round_half_even (x * 10)))).
  cbn [frac_digits]. change ("" ++ digits (m mod 10)%N) with (digits (m mod 10)%N).
  assert (Hk : (m mod 10 < 10)%N) by (apply N.mod_lt; discriminate).
  replace (((if Qlt_bool x 0 then "-" else "")
            ++ digits (m / 10)%N ++ "." ++ digits (m mod 10)%N) ++ " nights")
    with ((if Qlt_bool x 0 then "-" else "")
          ++ digits (m / 10)%N ++ "." ++ digits (m mod 10)%N ++ " nights").
  2:{ now rewrite !append_assoc_r. }
  rewrite (read_nights_parts _ _ _ Hk). f_equal.
  rewrite <- (N.div_mod m 10) by discriminate.
  subst m. apply round_half_even_sign.
  split; intros H; lra.
Qed.

(** ** Running the callback *)

(** The callback leaves the globals as it found them. *)
Lemma update_all_run (g : Globals) (ng rt : string) (pc : PriceCeiling) :
  update_all ng rt pc g = (outputs g ng rt pc, g).
Proof.
  unfold outputs, update_all, update_all_with, bind, global, copy, ret.
  cbv beta iota zeta.
  destruct (select_price pc (select_room_type rt (select_neigh_group ng (df g))));
    reflexivity.
Qed.

Lemma outputs_empty (g : Globals) (ng rt : string) (pc : PriceCeiling) :
  filtered g ng rt pc = [] -> outputs g ng rt pc = sentinel.
Proof.
  unfold outputs, update_all, update_all_with, bind, global, copy, ret,
    filtered.
  cbv beta iota zeta. intros ->. reflexivity.
Qed.

(** Unfolds the callback on a non-empty frame [H : filtered ... <> []]. *)
Ltac run_callback H :=
  unfold outputs, outputs_with, update_all, update_all_with, bind, global,
    copy, ret;
  unfold filtered in H |- *;
  cbv beta iota zeta;
  match type of H with
  | ?d <> [] => destruct d eqn:?; [contradiction | cbv beta iota zeta]
  end.

Section NonEmpty.
Variables (g : Globals) (ng rt : string) (pc : PriceCeiling).
Hypothesis nonempty : filtered g ng rt pc <> [].

Let data := filtered g ng rt pc.
Let o := outputs g ng rt pc.

Lemma hist_trace :
  trace (price_hist o)
  = px_histogram (filter (fun r => Qle_bool (price r) (base_cap pc)) data)
      50 (8 # 10) "overlay" borough_colors.
Proof. subst data o. run_callback nonempty. reflexivity. Qed.

Lemma hist_xaxis_range :
  range (xaxis (price_hist o)) = Some (0, base_cap pc).
Proof. subst data o. run_callback nonempty. reflexivity. Qed.

Lemma violin_trace :
  trace (price_violin o)
  = px_violin (merge_left data (group_stats data)) true false borough_colors
      (neigh_groups g).
Proof. subst data o. run_callback nonempty. reflexivity. Qed.

Lemma violin_yaxis_range :
  range (yaxis (price_violin o)) = Some (0, PRICE_AXIS_MAX).
Proof. subst data o. run_callback nonempty. reflexivity. Qed.

Lemma map_trace :
  trace (listing_map o)
  = px_scatter_mapbox (filter has_coordinates data) borough_colors 8 (98 # 10)
      (407128 # 10000, - (740060 # 10000)) "carto-positron" (6 # 10).
Proof. subst data o. run_callback nonempty. reflexivity. Qed.

Lemma kpi_avg_price_eq :
  kpi_avg_price o = "$" ++ format_f true 0 (mean (map price data)).
Proof. subst data o. run_callback nonempty. reflexivity. Qed.

Lemma kpi_num_listings_eq :
  kpi_num_listings o = format_d (Z.of_nat (List.length data)).
Proof. subst data o. run_callback nonempty. reflexivity. Qed.

Lemma kpi_avg_min_nights_eq :
  kpi_avg_min_nights o
  = format_f false 1 (mean (map (fun r => inject_Z (minimum_nights r)) data))
    ++ " nights".
Proof. subst data o. run_callback nonempty. reflexivity. Qed.
End NonEmpty.

(** The same facts for the callback over any implementation of the two
    reductions. *)
Section WithNumerics.
Variables (num : Numerics) (g : Globals) (ng rt : string) (pc : PriceCeiling).
Hypothesis nonempty : filtered g ng rt pc <> [].

Let data := filtered g ng rt pc.
Let o := outputs_with num g ng rt pc.

Lemma hist_trace_with :
  trace (price_hist o)
  = px_histogram (filter (fun r => Qle_bool (price r) (base_cap pc)) data)
      50 (8 # 10) "overlay" borough_colors.
Proof. subst data o. run_callback nonempty. reflexivity. Qed.

Lemma hist_xaxis_with :
  range (xaxis (price_hist o)) = Some (0, base_cap pc)
  /\ fixedrange (xaxis (price_hist o)) = true.
Proof. subst data o. run_callback nonempty. split; reflexivity. Qed.

Lemma violin_trace_with :
  trace (price_violin o)
  = px_violin (merge_left data (group_stats_with num data)) true false
      borough_colors (neigh_groups g).
Proof. subst data o. run_callback nonempty. reflexivity. Qed.


Lemma kpi_avg_price_with :
  kpi_avg_price o
  = "$" ++ format_f true 0 (series_mean num (map price data)).
Proof. subst data o. run_callback nonempty. reflexivity. Qed.


End WithNumerics.

Lemma outputs_exact (g : Globals) (ng rt : string) (pc : PriceCeiling) :
  outputs g ng rt pc = outputs_with exact g ng rt pc.
Proof. reflexivity. Qed.

(** ** The empty subset *)

Lemma placeholder_empty_fig : placeholder empty_fig.
Proof. repeat split. Qed.

Section NotSentinel.
Variables (g : Globals) (ng rt : string) (pc : PriceCeiling).
Hypothesis nonempty : filtered g ng rt pc <> [].

Lemma hist_not_placeholder :
  ~ placeholder (price_hist (outputs g ng rt pc)).
Proof. intros [C _]. rewrite hist_trace in C by assumption. discriminate. Qed.

Lemma violin_not_placeholder :
  ~ placeholder (price_violin (outputs g ng rt pc)).
Proof. intros [C _]. rewrite violin_trace in C by assumption. discriminate. Qed.

Lemma map_not_placeholder :
  ~ placeholder (listing_map (outputs g ng rt pc)).
Proof. intros [C _]. rewrite map_trace in C by assumption. discriminate. Qed.

Lemma kpi_avg_price_shown : kpi_avg_price (outputs g ng rt pc) <> "N/A".
Proof.
  intros C. apply (f_equal read_money) in C.
  rewrite kpi_avg_price_eq, read_money_format in C by assumption.
  discriminate.
Qed.

Lemma kpi_num_listings_shown : kpi_num_listings (outputs g ng rt pc) <> "N/A".
Proof.
  intros C. apply (f_equal read_int) in C.
  rewrite kpi_num_listings_eq, read_int_format_d in C by assumption.
  discriminate.
Qed.

Lemma kpi_avg_min_nights_shown :
  kpi_avg_min_nights (outputs g ng rt pc) <> "N/A".
Proof.
  intros C. apply (f_equal read_nights) in C.
  rewrite kpi_avg_min_nights_eq, read_nights_format in C by assumption.
  discriminate.
Qed.
End NotSentinel.

(** C1. For every filter tuple the filtered subset is empty exactly when
    [update_all] returns the sentinel, that is when all three figures are the
    hidden-axes "No data for selected filters" placeholder and all three KPIs
    read "N/A"; on a non-empty subset none of the six outputs is the
    sentinel's; and the call returns in either case, raising nothing. *)
Theorem empty_iff_sentinel (g : Globals) (ng rt : string) (pc : PriceCeiling) :
  let o := outputs g ng rt pc in
  (filtered g ng rt pc = [] <-> o = sentinel)
  /\ (o = sentinel <->
      placeholder (price_hist o) /\ placeholder (price_violin o)
      /\ placeholder (listing_map o)
      /\ kpi_avg_price o = "N/A" /\ kpi_num_listings o = "N/A"
      /\ kpi_avg_min_nights o = "N/A")
  /\ (filtered g ng rt pc = []
      \/ (~ placeholder (price_hist o) /\ ~ placeholder (price_violin o)
          /\ ~ placeholder (listing_map o)
          /\ kpi_avg_price o <> "N/A" /\ kpi_num_listings o <> "N/A"
          /\ kpi_avg_min_nights o <> "N/A"))
  /\ update_all ng rt pc g = (o, g).
Proof.
  intros o. subst o.
  assert (D : filtered g ng rt pc = [] \/ filtered g ng rt pc <> []).
  { destruct (filtered g ng rt pc); [now left | right; discriminate]. }
  split; [split | split; [split | split]].
  - apply outputs_empty.
  - intros E. destruct D as [D | D]; [exact D |].
    exfalso. apply (hist_not_placeholder g ng rt pc D).
    rewrite E. apply placeholder_empty_fig.
  - intros ->. cbn [price_hist price_violin listing_map kpi_avg_price
                    kpi_num_listings kpi_avg_min_nights sentinel].
    auto 10 using placeholder_empty_fig.
  - intros (Hh & _). destruct D as [D | D]; [now apply outputs_empty |].
    exfalso. now apply (hist_not_placeholder g ng rt pc D).
  - destruct D as [D | D]; [now left | right].
    auto 10 using hist_not_placeholder, violin_not_placeholder,
      map_not_placeholder, kpi_avg_price_shown, kpi_num_listings_shown,
      kpi_avg_min_nights_shown.
  - apply update_all_run.
Qed.

(** ** KPIs *)




Lemma sample_nonempty : filtered sample "All" "All" (dollars 800) <> [].
Proof. vm_compute. discriminate. Qed.


(** ** Axis ranges *)

(** Python's [min] on two numbers is the smaller of the two. *)
Lemma py_min_Qmin (a b : Q) : py_min a b = Qmin a b.
Proof.
  unfold py_min, Qlt_bool, Qle_bool, Qmin, GenericMinMax.gmin, Qcompare, Z.leb.
  destruct (Qnum a * QDen b ?= Qnum b * QDen a)%Z; reflexivity.
Qed.

Lemma select_all (g : Globals) (pc : PriceCeiling) :
  filtered g "All" "All" pc = select_price pc (df g).
Proof. reflexivity. Qed.

(** C3. On a non-empty filtered subset the histogram's x axis runs up to
    [min(800, ceiling)] when a ceiling is selected and up to 800 when it is
    "none"; with region "All", room type "All" and ceiling 200 the subset is
    the rows priced at most 200, so no row priced above 200 is in it, and
    the x axis runs up to 200. *)
Theorem hist_xaxis_upper (g : Globals) (ng rt : string) (pc : PriceCeiling)
  (nonempty : filtered g ng rt pc <> []) :
  let o := outputs g ng rt pc in
  upper (xaxis (price_hist o))
  = Some (match pc with none => 800 | dollars c => Qmin 800 c end)
  /\ (ng = "All" -> rt = "All" -> pc = dollars 200 ->
      filtered g ng rt pc = filter (fun r => Qle_bool (price r) 200) (df g)
      /\ (forall r, In r (filtered g ng rt pc) -> price r <= 200)
      /\ (forall r, 200 < price r -> ~ In r (filtered g ng rt pc))
      /\ upper (xaxis (price_hist o)) = Some 200).
Proof.
  intros o. subst o.
  assert (U : upper (xaxis (price_hist (outputs g ng rt pc)))
              = Some (match pc with none => 800 | dollars c => Qmin 800 c end)).
  { unfold upper. rewrite hist_xaxis_range by assumption.
    destruct pc as [|c]; cbn [option_map snd base_cap];
      [reflexivity | now rewrite py_min_Qmin]. }
  split; [exact U |].
  intros -> -> ->.
  assert (M : forall r, In r (filtered g "All" "All" (dollars 200)) ->
                        price r <= 200).
  { intros r Hr. rewrite select_all in Hr. cbn [select_price] in Hr.
    apply filter_In in Hr. now apply Qle_bool_iff. }
  split; [reflexivity | split; [exact M | split]].
  - intros r Hgt Hin. apply M in Hin. lra.
  - rewrite U. reflexivity.
Qed.

Lemma hist_xaxis_upper_witness :
  filtered sample "All" "All" (dollars 200) <> []
  /\ upper (xaxis (price_hist (outputs sample "All" "All" (dollars 200))))
     = Some 200.
Proof.
  assert (H : filtered sample "All" "All" (dollars 200) <> [])
    by (vm_compute; discriminate).
  split; [exact H |].
  exact (proj2 (proj2 (proj2
    (proj2 (hist_xaxis_upper sample "All" "All" (dollars 200) H)
       eq_refl eq_refl eq_refl)))).
Defined.

(** C5. On a non-empty filtered subset the violin chart's y axis runs from 0
    up to exactly 600, whatever region, room type and price ceiling were
    selected. *)
Theorem violin_yaxis_upper (g : Globals) (ng rt : string) (pc : PriceCeiling)
  (nonempty : filtered g ng rt pc <> []) :
  upper (yaxis (price_violin (outputs g ng rt pc))) = Some 600
  /\ range (yaxis (price_violin (outputs g ng rt pc))) = Some (0, 600)
  /\ fixedrange (yaxis (price_violin (outputs g ng rt pc))) = true.
Proof.
  unfold upper. rewrite violin_yaxis_range by assumption.
  split; [reflexivity | split; [reflexivity |]].
  run_callback nonempty. reflexivity.
Qed.

Lemma violin_yaxis_upper_witness :
  filtered sample "Brooklyn" "Private room" none <> []
  /\ upper (yaxis (price_violin (outputs sample "Brooklyn" "Private room" none)))
     = Some 600.
Proof.
  assert (H : filtered sample "Brooklyn" "Private room" none <> [])
    by (vm_compute; discriminate).
  split; [exact H |].
  exact (proj1 (violin_yaxis_upper sample "Brooklyn" "Private room" none H)).
Defined.

(** ** Rows drawn by each figure *)

Lemma map_fst_merge_left (data : DataFrame) (stats : list (string * GroupStats)) :
  map fst (merge_left data stats) = data.
Proof.
  unfold merge_left. rewrite map_map. cbn [fst]. apply map_id.
Qed.

Lemma has_coordinates_iff (r : Listing) :
  has_coordinates r = true <-> latitude r <> None /\ longitude r <> None.
Proof.
  unfold has_coordinates.
  destruct (latitude r), (longitude r); split; intros H;
    try discriminate; try reflexivity.
  - split; discriminate.
  - now destruct H.
  - now destruct H.
  - now destruct H.
Qed.

(** ** The filter *)

Lemma filter_true {A : Type} (f : A -> bool) (l : list A) :
  (forall x, f x = true) -> filter f l = l.
Proof.
  intros H. induction l as [|a l IH]; simpl; [reflexivity |].
  now rewrite H, IH.
Qed.

Lemma filter_filter {A : Type} (f h : A -> bool) (l : list A) :
  filter f (filter h l) = filter (fun x => h x && f x) l.
Proof.
  induction l as [|a l IH]; simpl; [reflexivity |].
  destruct (h a); simpl; [destruct (f a) |]; now rewrite IH.
Qed.

Lemma select_neigh_group_filter (ng : string) (data : DataFrame) :
  select_neigh_group ng data = filter (region_ok ng) data.
Proof.
  unfold select_neigh_group, region_ok.
  destruct (String.eqb ng "All"); simpl.
  - symmetry. now apply filter_true.
  - reflexivity.
Qed.

Lemma select_room_type_filter (rt : string) (data : DataFrame) :
  select_room_type rt data = filter (room_ok rt) data.
Proof.
  unfold select_room_type, room_ok.
  destruct (String.eqb rt "All"); simpl.
  - symmetry. now apply filter_true.
  - reflexivity.
Qed.

Lemma select_price_filter (pc : PriceCeiling) (data : DataFrame) :
  select_price pc data = filter (price_ok pc) data.
Proof.
  destruct pc; simpl; [symmetry; now apply filter_true | reflexivity].
Qed.

Lemma cell_eqb_iff (c : option string) (v : string) :
  cell_eqb c v = true <-> c = Some v.
Proof.
  destruct c as [s|]; simpl.
  - rewrite String.eqb_eq. split; [now intros -> | now intros [= ->]].
  - split; discriminate.
Qed.

Lemma matches_iff (ng rt : string) (pc : PriceCeiling) (r : Listing) :
  matches ng rt pc r = true <->
  (ng = "All" \/ neighbourhood_group r = Some ng)
  /\ (rt = "All" \/ room_type r = Some rt)
  /\ match pc with none => True | dollars c => price r <= c end.
Proof.
  unfold matches, region_ok, room_ok.
  rewrite !andb_true_iff, !orb_true_iff, !cell_eqb_iff, !String.eqb_eq.
  destruct pc as [|c]; cbn [price_ok].
  - tauto.
  - rewrite Qle_bool_iff. tauto.
Qed.

(** Rewrites the three selections into one [filter]. *)
Ltac as_one_filter :=
  rewrite ?select_neigh_group_filter, ?select_room_type_filter,
    ?select_price_filter, ?filter_filter.

(** C7. The filtered subset is the rows of the dataset that satisfy the
    conjunction of the three predicates (region equal to the selection unless
    it is "All", room type equal to the selection unless it is "All", price
    at most the ceiling unless it is "none"), and the three selections give
    the same subset in each of the six orders they can be applied in. *)
Theorem filtered_conjunction (g : Globals) (ng rt : string) (pc : PriceCeiling) :
  let N := select_neigh_group ng in
  let R := select_room_type rt in
  let P := select_price pc in
  filtered g ng rt pc = filter (matches ng rt pc) (df g)
  /\ (forall r, In r (filtered g ng rt pc) <->
        In r (df g)
        /\ (ng = "All" \/ neighbourhood_group r = Some ng)
        /\ (rt = "All" \/ room_type r = Some rt)
        /\ match pc with none => True | dollars c => price r <= c end)
  /\ filtered g ng rt pc = P (R (N (df g)))
  /\ P (N (R (df g))) = filtered g ng rt pc
  /\ R (P (N (df g))) = filtered g ng rt pc
  /\ R (N (P (df g))) = filtered g ng rt pc
  /\ N (P (R (df g))) = filtered g ng rt pc
  /\ N (R (P (df g))) = filtered g ng rt pc.
Proof.
  intros N R P. subst N R P.
  assert (E : filtered g ng rt pc = filter (matches ng rt pc) (df g)).
  { unfold filtered, matches. as_one_filter. apply filter_ext. intros r.
    now rewrite andb_assoc. }
  split; [exact E |].
  split.
  { intros r. rewrite E, filter_In, matches_iff. reflexivity. }
  split; [reflexivity |].
  rewrite E. unfold matches.
  repeat split; as_one_filter; apply filter_ext; intros r;
    destruct (region_ok ng r), (room_ok rt r), (price_ok pc r); reflexivity.
Qed.

(** ** Determinism *)

Lemma run_calls_globals (calls : list (string * string * PriceCeiling))
  (g : Globals) :
  snd (run_calls calls g) = g.
Proof.
  induction calls as [|[[ng rt] pc] rest IH]; [reflexivity |].
  cbn [run_calls]. unfold bind. rewrite update_all_run.
  destruct (run_calls rest g) as [os g'] eqn:E. cbn [snd] in IH. subst g'.
  reflexivity.
Qed.

(** C8. [update_all] leaves the module globals untouched and its six outputs
    are a function of the dataset and the filter tuple alone: called twice in
    a row with the same tuple it returns the same outputs, and it returns the
    same outputs after any sequence of earlier invocations. *)
Theorem update_all_deterministic (g : Globals) (ng rt : string)
  (pc : PriceCeiling) :
  snd (update_all ng rt pc g) = g
  /\ (o1 <- update_all ng rt pc ;; o2 <- update_all ng rt pc ;; ret (o1, o2)) g
     = ((outputs g ng rt pc, outputs g ng rt pc), g)
  /\ (forall calls,
        snd (run_calls calls g) = g
        /\ fst (update_all ng rt pc (snd (run_calls calls g)))
           = fst (update_all ng rt pc g)).
Proof.
  split; [now rewrite update_all_run |].
  split.
  - unfold bind. rewrite update_all_run. cbv beta iota.
    rewrite update_all_run. reflexivity.
  - intros calls. rewrite run_calls_globals. split; reflexivity.
Qed.

(** ** Monotonicity in the price ceiling *)

Lemma filtered_price (g : Globals) (ng rt : string) (pc : PriceCeiling) :
  filtered g ng rt pc = select_price pc (filtered g ng rt none).
Proof. reflexivity. Qed.

Lemma incl_filter {A : Type} (f : A -> bool) (l : list A) :
  incl (filter f l) l.
Proof. intros x Hx. now apply filter_In in Hx. Qed.

(** C10. For a fixed region and room type and two ceilings [c1 <= c2], the
    subset kept under [c1] is the part of the subset kept under [c2] that is
    priced at most [c1]; hence every row kept under [c1] is kept under [c2],
    every row kept under a ceiling is kept under "none", and the number of
    listings does not decrease when the ceiling is raised or removed. *)
Theorem price_ceiling_monotone (g : Globals) (ng rt : string) (c1 c2 : Q)
  (le : c1 <= c2) :
  let low := filtered g ng rt (dollars c1) in
  let high := filtered g ng rt (dollars c2) in
  let all := filtered g ng rt none in
  low = select_price (dollars c1) high
  /\ incl low high
  /\ incl high all
  /\ incl low all
  /\ (List.length low <= List.length high)%nat
  /\ (List.length high <= List.length all)%nat.
Proof.
  intros low high all.
  assert (E : low = select_price (dollars c1) high).
  { subst low high.
    rewrite (filtered_price g ng rt (dollars c1)),
      (filtered_price g ng rt (dollars c2)).
    cbn [select_price].
    rewrite filter_filter. apply filter_ext. intros r.
    destruct (Qle_bool (price r) c1) eqn:H1; [| now rewrite andb_false_r].
    apply Qle_bool_iff in H1.
    assert (H2 : price r <= c2) by lra.
    apply Qle_bool_iff in H2. now rewrite H2. }
  split; [exact E |].
  split; [rewrite E; apply incl_filter |].
  split; [apply incl_filter |].
  split; [apply incl_filter |].
  split; [rewrite E; apply filter_length_le | apply filter_length_le].
Qed.

Lemma price_ceiling_monotone_witness :
  200 <= 400
  /\ (List.length (filtered sample "All" "All" (dollars 200))
      <= List.length (filtered sample "All" "All" (dollars 400)))%nat.
Proof.
  assert (H : 200 <= 400) by (unfold Qle; simpl; lia).
  split; [exact H |].
  exact (proj1 (proj2 (proj2 (proj2 (proj2
    (price_ceiling_monotone sample "All" "All" 200 400 H)))))).
Defined.

(** ** The initial view *)

(** C4 as stated does not hold: the price-ceiling dropdown does not start at
    "none", and on the sample table (three loaded rows) the first view leaves
    out the listing priced 900, so it is not the full dataset. *)
Lemma initial_view_not_full :
  value global_price_ceiling <> none
  /\ List.length (df sample) = 3%nat
  /\ rows_of (price_violin (initial_view sample)) <> df sample
  /\ read_int (kpi_num_listings (initial_view sample)) = Some 2%Z
  /\ ~ (forall g, rows_of (price_violin (initial_view g)) = df g).
Proof.
  assert (D : rows_of (price_violin (initial_view sample)) <> df sample).
  { intros C. apply (f_equal (@List.length Listing)) in C.
    vm_compute in C. discriminate. }
  split; [discriminate |].
  split; [reflexivity |].
  split; [exact D |].
  split; [vm_compute; reflexivity |].
  intros C. exact (D (C sample)).
Qed.

(** C4, as the code has it.  At initial load the region and room-type
    filters are "All" and the price ceiling is 800: the first view is the
    callback's output on the rows of the loaded dataset priced at most 800,
    whatever their region and room type. *)
Theorem initial_view_capped (g : Globals) :
  value (global_neigh_group g) = "All"
  /\ value (global_room_type g) = "All"
  /\ value global_price_ceiling = dollars 800
  /\ initial_view g = outputs g "All" "All" (dollars 800)
  /\ filtered g "All" "All" (dollars 800)
     = filter (fun r => Qle_bool (price r) 800) (df g)
  /\ (forall r, In r (filtered g "All" "All" (dollars 800)) <->
                In r (df g) /\ price r <= 800).
Proof.
  repeat (split; [reflexivity |]).
  intros r. rewrite select_all. cbn [select_price].
  rewrite filter_In, Qle_bool_iff. reflexivity.
Qed.

(** * Further properties of the program *)

(** ** Loading (line 12) *)

Lemma Qlt_bool_iff (a b : Q) : Qlt_bool a b = true <-> a < b.
Proof.
  unfold Qlt_bool. rewrite negb_true_iff.
  split; intros H.
  - apply Qnot_le_lt. intros C. apply Qle_bool_iff in C. congruence.
  - destruct (Qle_bool b a) eqn:E; [| reflexivity].
    apply Qle_bool_iff in E. exfalso. now apply (Qlt_not_le a b).
Qed.

Lemma load_In (csv : DataFrame) (r : Listing) :
  In r (load csv) <-> In r csv /\ 0 < price r.
Proof. unfold load. now rewrite filter_In, Qlt_bool_iff. Qed.

Lemma filtered_as_filter (g : Globals) (ng rt : string) (pc : PriceCeiling) :
  filtered g ng rt pc = filter (matches ng rt pc) (df g).
Proof.
  unfold filtered, matches. as_one_filter. apply filter_ext. intros r.
  now rewrite andb_assoc.
Qed.

Lemma filtered_In (g : Globals) (ng rt : string) (pc : PriceCeiling)
  (r : Listing) :
  In r (filtered g ng rt pc) <-> In r (df g) /\ matches ng rt pc r = true.
Proof. now rewrite filtered_as_filter, filter_In. Qed.

Lemma filtered_incl (g : Globals) (ng rt : string) (pc : PriceCeiling) :
  incl (filtered g ng rt pc) (df g).
Proof. intros r Hr. now apply filtered_In in Hr. Qed.

(** ** Sorting and de-duplication (lines 30-31) *)

Lemma In_dropna {A : Type} (v : A) (col : list (option A)) :
  In v (dropna col) <-> In (Some v) col.
Proof.
  induction col as [|[a|] col IH]; simpl.
  - tauto.
  - rewrite IH. split; intros [H | H]; auto; left; congruence.
  - rewrite IH. split; [auto | intros [H | H]; [discriminate | exact H]].
Qed.

Lemma mem_string_iff (s : string) (l : list string) :
  mem_string s l = true <-> In s l.
Proof.
  unfold mem_string. rewrite existsb_exists. split.
  - intros (x & Hx & E). apply String.eqb_eq in E. now subst.
  - intros H. exists s. split; [exact H | apply String.eqb_refl].
Qed.

Lemma unique_from_In (s : string) (l seen : list string) :
  In s (unique_from seen l) <-> In s l /\ ~ In s seen.
Proof.
  revert seen. induction l as [|a l IH]; intros seen; simpl.
  - tauto.
  - destruct (mem_string a seen) eqn:E.
    + apply mem_string_iff in E. rewrite IH. split.
      * intros [H1 H2]. auto.
      * intros [[-> | H1] H2]; [contradiction | auto].
    + assert (N : ~ In a seen).
      { intros C. apply mem_string_iff in C. congruence. }
      simpl. rewrite IH. simpl. split.
      * intros [-> | [H1 H2]]; [auto | split; [auto | tauto]].
      * intros [[-> | H1] H2]; [auto |].
        destruct (string_dec a s) as [-> | D]; [auto | right; tauto].
Qed.

Lemma unique_from_NoDup (l seen : list string) : NoDup (unique_from seen l).
Proof.
  revert seen. induction l as [|a l IH]; intros seen; simpl.
  - constructor.
  - destruct (mem_string a seen); [apply IH |].
    constructor; [| apply IH].
    rewrite unique_from_In. simpl. tauto.
Qed.

Lemma insert_sorted_perm {A : Type} (le : A -> A -> bool) (x : A) (l : list A) :
  Permutation (insert_sorted le x l) (x :: l).
Proof.
  induction l as [|y l IH]; simpl; [reflexivity |].
  destruct (le x y); [reflexivity |].
  rewrite IH. apply perm_swap.
Qed.

Lemma sorted_perm {A : Type} (le : A -> A -> bool) (l : list A) :
  Permutation (sorted le l) l.
Proof.
  induction l as [|x l IH]; simpl; [reflexivity |].
  rewrite insert_sorted_perm. now constructor.
Qed.

Section InsertionSort.
Context {A : Type} (le : A -> A -> bool).
Hypothesis le_total : forall x y, le x y = true \/ le y x = true.

Lemma insert_sorted_Sorted (x : A) (l : list A) :
  Sorted (fun a b => le a b = true) l ->
  Sorted (fun a b => le a b = true) (insert_sorted le x l).
Proof.
  induction 1 as [|y l Hs IH Hd]; simpl.
  - repeat constructor.
  - destruct (le x y) eqn:E.
    + repeat constructor; assumption.
    + constructor; [exact IH |].
      assert (Hyx : le y x = true).
      { destruct (le_total x y); congruence. }
      destruct Hd as [|z l' Hz]; simpl.
      * now constructor.
      * destruct (le x z); now constructor.
Qed.

Lemma sorted_Sorted (l : list A) :
  Sorted (fun a b => le a b = true) (sorted le l).
Proof.
  induction l as [|x l IH]; simpl; [constructor |].
  now apply insert_sorted_Sorted.
Qed.
End InsertionSort.

Lemma ltb_of_leb (a b : string) :
  String.leb a b = true -> a <> b -> String.ltb a b = true.
Proof.
  unfold String.leb, String.ltb. intros H D.
  destruct (String.compare a b) eqn:E; try reflexivity; try discriminate.
  apply String.compare_eq_iff in E. contradiction.
Qed.

Lemma Sorted_NoDup_ascending (l : list string) :
  Sorted (fun a b => String.leb a b = true) l -> NoDup l -> ascending l.
Proof.
  unfold ascending. induction 1 as [|a l Hs IH Hd]; intros Hn.
  - constructor.
  - inversion_clear Hn as [|? ? Ha Hl].
    constructor; [now apply IH |].
    destruct Hd as [|b l' Hb]; constructor.
    apply ltb_of_leb; [exact Hb |].
    intros ->. apply Ha. now left.
Qed.

(** The names found in a text column, as the program lists them. *)
Lemma names_spec (col : list (option string)) :
  let names := sorted String.leb (unique (dropna col)) in
  (forall k, In k names <-> In (Some k) col)
  /\ NoDup names
  /\ ascending names.
Proof.
  intros names.
  assert (P : Permutation names (unique (dropna col))) by apply sorted_perm.
  assert (N : NoDup names).
  { apply (Permutation_NoDup (Permutation_sym P)), unique_from_NoDup. }
  split; [| split; [exact N |]].
  - intros k. rewrite <- In_dropna. split; intros H.
    + apply (Permutation_in _ P) in H. now apply unique_from_In in H.
    + apply (Permutation_in _ (Permutation_sym P)).
      apply unique_from_In. tauto.
  - apply Sorted_NoDup_ascending; [| exact N].
    apply sorted_Sorted, String.leb_total.
Qed.

Lemma In_Some_column {A : Type} (f : Listing -> option A) (k : A)
  (d : DataFrame) :
  In (Some k) (map f d) <-> exists r, In r d /\ f r = Some k.
Proof.
  rewrite in_map_iff. split; intros (r & H1 & H2); exists r; tauto.
Qed.

Lemma startup_neigh_groups (csv : DataFrame) (k : string) :
  In k (neigh_groups (startup csv)) <->
  exists r, In r (df (startup csv)) /\ neighbourhood_group r = Some k.
Proof.
  cbn [startup df neigh_groups].
  destruct (names_spec (map neighbourhood_group (load csv))) as (N1 & _).
  now rewrite N1, In_Some_column.
Qed.

Lemma startup_room_types (csv : DataFrame) (k : string) :
  In k (room_types (startup csv)) <->
  exists r, In r (df (startup csv)) /\ room_type r = Some k.
Proof.
  cbn [startup df room_types].
  destruct (names_spec (map room_type (load csv))) as (N1 & _).
  now rewrite N1, In_Some_column.
Qed.

Lemma startup_NoDup (csv : DataFrame) :
  NoDup (neigh_groups (startup csv)) /\ NoDup (room_types (startup csv)).
Proof.
  cbn [startup neigh_groups room_types].
  split; apply names_spec.
Qed.

Lemma startup_positive (csv : DataFrame) (r : Listing) :
  In r (df (startup csv)) -> 0 < price r.
Proof. cbn [startup df]. intros H. now apply load_In in H. Qed.

(** X1. After start-up [df] is the file with the rows priced zero or less
    taken out: the rows priced above zero, each as often as the file has it
    and in the file's order; [neigh_groups] and [room_types] list exactly the
    non-null region names and room types that occur in [df], each once, in
    strictly ascending order. *)
Theorem startup_globals (csv : DataFrame) :
  let g := startup csv in
  (exists keep : Listing -> bool,
      (forall r, keep r = true <-> 0 < price r) /\ df g = filter keep csv)
  /\ (forall r, In r (df g) <-> In r csv /\ 0 < price r)
  /\ (forall k, In k (neigh_groups g) <->
                exists r, In r (df g) /\ neighbourhood_group r = Some k)
  /\ NoDup (neigh_groups g) /\ ascending (neigh_groups g)
  /\ (forall k, In k (room_types g) <->
                exists r, In r (df g) /\ room_type r = Some k)
  /\ NoDup (room_types g) /\ ascending (room_types g).
Proof.
  intros g. subst g. cbn [startup df neigh_groups room_types].
  destruct (names_spec (map neighbourhood_group (load csv))) as (N1 & N2 & N3).
  destruct (names_spec (map room_type (load csv))) as (R1 & R2 & R3).
  split.
  { exists (fun r => Qlt_bool 0 (price r)). split; [| reflexivity].
    intros r. apply Qlt_bool_iff. }
  split; [apply load_In |].
  split; [intros k; now rewrite N1, In_Some_column |].
  split; [exact N2 | split; [exact N3 |]].
  split; [intros k; now rewrite R1, In_Some_column |].
  split; assumption.
Qed.

(** ** What the dropdowns offer (lines 33-39, 350-354) *)

Lemma nonempty_exists {A : Type} (l : list A) : l <> [] <-> exists x, In x l.
Proof.
  destruct l as [|a l]; split.
  - contradiction.
  - intros (x & []).
  - intros _. exists a. now left.
  - discriminate.
Qed.

Lemma matches_region (k : string) (r : Listing) :
  k <> "All" ->
  (matches k "All" none r = true <-> neighbourhood_group r = Some k).
Proof.
  intros D. rewrite matches_iff. split.
  - intros ([C | H] & _); [contradiction | exact H].
  - intros H. auto.
Qed.

Lemma matches_room (k : string) (r : Listing) :
  k <> "All" ->
  (matches "All" k none r = true <-> room_type r = Some k).
Proof.
  intros D. rewrite matches_iff. split.
  - intros (_ & [C | H] & _); [contradiction | exact H].
  - intros H. auto.
Qed.

(** X2. After start-up, a region other than "All" is offered by the region
    dropdown exactly when selecting it (with room type "All" and no ceiling)
    leaves at least one listing; selecting a region that is not offered gives
    the "N/A" sentinel. *)
Theorem offered_regions_have_listings (csv : DataFrame) (k : string)
  (named : k <> "All") :
  let g := startup csv in
  (In k (option_values (global_neigh_group g)) <->
   filtered g k "All" none <> [])
  /\ (~ In k (option_values (global_neigh_group g)) ->
      outputs g k "All" none = sentinel).
Proof.
  intros g.
  assert (E : In k (option_values (global_neigh_group g)) <->
              filtered g k "All" none <> []).
  { unfold option_values, global_neigh_group, labelled.
    cbn [options map snd]. rewrite map_map. cbn [snd]. rewrite map_id.
    pose proof (startup_neigh_groups csv) as Hn. fold g in Hn.
    rewrite (nonempty_exists (filtered g k "All" none)). cbn [In]. split.
    - intros [C | H]; [congruence |].
      apply Hn in H. destruct H as (r & Hr & Hk). exists r.
      apply filtered_In. split; [exact Hr | now apply matches_region].
    - intros (r & Hr). apply filtered_In in Hr. destruct Hr as [Hr Hm].
      right. apply Hn. exists r. split; [exact Hr |].
      now apply matches_region. }
  split; [exact E |].
  intros N. apply outputs_empty.
  destruct (filtered g k "All" none) eqn:F; [reflexivity |].
  exfalso. apply N, E. discriminate.
Qed.

Lemma offered_regions_have_listings_witness :
  "Brooklyn" <> "All"
  /\ (In "Brooklyn" (option_values (global_neigh_group sample)) <->
      filtered sample "Brooklyn" "All" none <> []).
Proof.
  assert (H : "Brooklyn" <> "All") by discriminate.
  split; [exact H |].
  exact (proj1 (offered_regions_have_listings sample_csv "Brooklyn" H)).
Defined.

(** X3. After start-up, a room type other than "All" is offered by the
    room-type dropdown exactly when selecting it (with region "All" and no
    ceiling) leaves at least one listing; selecting a room type that is not
    offered gives the "N/A" sentinel. *)
Theorem offered_room_types_have_listings (csv : DataFrame) (k : string)
  (named : k <> "All") :
  let g := startup csv in
  (In k (option_values (global_room_type g)) <->
   filtered g "All" k none <> [])
  /\ (~ In k (option_values (global_room_type g)) ->
      outputs g "All" k none = sentinel).
Proof.
  intros g.
  assert (E : In k (option_values (global_room_type g)) <->
              filtered g "All" k none <> []).
  { unfold option_values, global_room_type, labelled.
    cbn [options map snd]. rewrite map_map. cbn [snd]. rewrite map_id.
    pose proof (startup_room_types csv) as Hn. fold g in Hn.
    rewrite (nonempty_exists (filtered g "All" k none)). cbn [In]. split.
    - intros [C | H]; [congruence |].
      apply Hn in H. destruct H as (r & Hr & Hk). exists r.
      apply filtered_In. split; [exact Hr | now apply matches_room].
    - intros (r & Hr). apply filtered_In in Hr. destruct Hr as [Hr Hm].
      right. apply Hn. exists r. split; [exact Hr |].
      now apply matches_room. }
  split; [exact E |].
  intros N. apply outputs_empty.
  destruct (filtered g "All" k none) eqn:F; [reflexivity |].
  exfalso. apply N, E. discriminate.
Qed.

Lemma offered_room_types_have_listings_witness :
  "Private room" <> "All"
  /\ (In "Private room" (option_values (global_room_type sample)) <->
      filtered sample "All" "Private room" none <> []).
Proof.
  assert (H : "Private room" <> "All") by discriminate.
  split; [exact H |].
  exact (proj1 (offered_room_types_have_listings sample_csv "Private room" H)).
Defined.

(** ** Averages (lines 369-373) *)

Lemma count_succ {A : Type} (x : A) (l : list A) :
  inject_Z (Z.of_nat (List.length (x :: l)))
  == inject_Z (Z.of_nat (List.length l)) + 1.
Proof.
  cbn [List.length]. rewrite Nat2Z.inj_succ. unfold Z.succ.
  now rewrite inject_Z_plus.
Qed.

Lemma count_pos {A : Type} (l : list A) :
  l <> [] -> 0 < inject_Z (Z.of_nat (List.length l)).
Proof.
  intros H. destruct l as [|a l]; [contradiction |].
  unfold Qlt. cbn [inject_Z Qnum Qden List.length]. lia.
Qed.

Lemma count_nonneg {A : Type} (l : list A) :
  0 <= inject_Z (Z.of_nat (List.length l)).
Proof. unfold Qle. cbn [inject_Z Qnum Qden]. lia. Qed.

Lemma Qsum_lower (a : Q) (l : list Q) :
  (forall x, In x l -> a <= x) ->
  a * inject_Z (Z.of_nat (List.length l)) <= Qsum l.
Proof.
  induction l as [|x l IH]; intros H.
  - change (inject_Z (Z.of_nat (List.length (@nil Q)))) with 0.
    change (Qsum []) with 0. lra.
  - rewrite count_succ. cbn [Qsum fold_right]. fold (Qsum l).
    assert (a <= x) by (apply H; now left).
    assert (a * inject_Z (Z.of_nat (List.length l)) <= Qsum l).
    { apply IH. intros y Hy. apply H. now right. }
    lra.
Qed.

Lemma Qsum_upper (b : Q) (l : list Q) :
  (forall x, In x l -> x <= b) ->
  Qsum l <= b * inject_Z (Z.of_nat (List.length l)).
Proof.
  induction l as [|x l IH]; intros H.
  - change (inject_Z (Z.of_nat (List.length (@nil Q)))) with 0.
    change (Qsum []) with 0. lra.
  - rewrite count_succ. cbn [Qsum fold_right]. fold (Qsum l).
    assert (x <= b) by (apply H; now left).
    assert (Qsum l <= b * inject_Z (Z.of_nat (List.length l))).
    { apply IH. intros y Hy. apply H. now right. }
    lra.
Qed.

Lemma Qsum_positive (l : list Q) :
  l <> [] -> (forall x, In x l -> 0 < x) -> 0 < Qsum l.
Proof.
  intros Hne H. destruct l as [|x l]; [contradiction |].
  cbn [Qsum fold_right]. fold (Qsum l).
  assert (0 < x) by (apply H; now left).
  assert (0 * inject_Z (Z.of_nat (List.length l)) <= Qsum l).
  { apply Qsum_lower. intros y Hy. apply Qlt_le_weak, H. now right. }
  lra.
Qed.

(** The mean of a non-empty list lies within any bound of its elements. *)
Lemma mean_lower (a : Q) (l : list Q) :
  l <> [] -> (forall x, In x l -> a <= x) -> a <= mean l.
Proof.
  intros Hne H. unfold mean.
  apply Qle_shift_div_l; [now apply count_pos | now apply Qsum_lower].
Qed.

Lemma mean_upper (b : Q) (l : list Q) :
  l <> [] -> (forall x, In x l -> x <= b) -> mean l <= b.
Proof.
  intros Hne H. unfold mean.
  apply Qle_shift_div_r; [now apply count_pos | now apply Qsum_upper].
Qed.

Lemma mean_positive (l : list Q) :
  l <> [] -> (forall x, In x l -> 0 < x) -> 0 < mean l.
Proof.
  intros Hne H. unfold mean.
  apply Qlt_shift_div_l; [now apply count_pos |].
  pose proof (Qsum_positive l Hne H). lra.
Qed.

Lemma map_nonempty {A B : Type} (f : A -> B) (l : list A) :
  l <> [] -> map f l <> [].
Proof. destruct l; [contradiction | discriminate]. Qed.

Lemma round_half_even_le (x : Q) (z : Z) :
  x <= inject_Z z -> (round_half_even x <= z)%Z.
Proof.
  intros H.
  pose proof (round_half_even_bounds x) as [_ Hhi].
  destruct (Qfloor_bounds x) as [Flo Fhi].
  assert (Hf : (Qfloor x <= z)%Z).
  { rewrite <- (Qfloor_Z z). now apply Qfloor_resp_le. }
  destruct (Z.eq_dec (Qfloor x) z) as [E | D]; [| lia].
  unfold round_half_even. rewrite E in Flo |- *.
  destruct (Qcompare_spec (x - inject_Z z) (1 # 2)) as [C | C | C].
  - lra.
  - lia.
  - lra.
Qed.

Lemma round_half_even_nonneg (x : Q) : 0 <= x -> (0 <= round_half_even x)%Z.
Proof.
  intros H. pose proof (round_half_even_bounds x) as [Hlo _].
  assert (0 <= Qfloor x)%Z.
  { change 0%Z with (Qfloor 0). now apply Qfloor_resp_le. }
  lia.
Qed.

(** X4. After start-up the prices of a non-empty filtered subset are all
    above zero, and so is their exact mean; whenever the float the library's
    mean returns for them is above zero too, the average-price KPI carries no
    minus sign: it is a dollar sign followed by digits grouped by
    thousands. *)
Theorem average_price_positive (csv : DataFrame) (ng rt : string)
  (pc : PriceCeiling)
  (nonempty : filtered (startup csv) ng rt pc <> []) :
  let g := startup csv in
  let prices := map price (filtered g ng rt pc) in
  (forall x, In x prices -> 0 < x)
  /\ 0 < mean prices
  /\ (forall num : Numerics,
        0 < series_mean num prices ->
        exists n : N,
          kpi_avg_price (outputs_with num g ng rt pc)
          = "$" ++ thousands (digits n))
  /\ exists n : N,
       kpi_avg_price (outputs g ng rt pc) = "$" ++ thousands (digits n).
Proof.
  intros g prices.
  assert (A : forall x, In x prices -> 0 < x).
  { intros x Hx. apply in_map_iff in Hx. destruct Hx as (r & <- & Hr).
    apply (startup_positive csv). now apply filtered_incl in Hr. }
  assert (P : 0 < mean prices).
  { apply mean_positive; [now apply map_nonempty | exact A]. }
  assert (G : forall num : Numerics,
            0 < series_mean num prices ->
            exists n : N,
              kpi_avg_price (outputs_with num g ng rt pc)
              = "$" ++ thousands (digits n)).
  { intros num Hpos.
    rewrite kpi_avg_price_with by assumption. fold g. fold prices.
    unfold format_f. change (10 ^ N.of_nat 0)%N with 1%N.
    assert (S : Qlt_bool (series_mean num prices) 0 = false).
    { destruct (Qlt_bool (series_mean num prices) 0) eqn:C; [| reflexivity].
      apply Qlt_bool_iff in C. lra. }
    rewrite S, append_empty_r. cbn [append]. eexists. reflexivity. }
  split; [exact A | split; [exact P | split; [exact G |]]].
  rewrite outputs_exact. apply G. exact P.
Qed.

Lemma average_price_positive_witness :
  filtered (startup sample_csv) "All" "All" (dollars 800) <> []
  /\ 0 < mean (map price (filtered (startup sample_csv) "All" "All" (dollars 800))).
Proof.
  split; [exact sample_nonempty |].
  exact (proj1 (proj2 (average_price_positive sample_csv "All" "All"
                         (dollars 800) sample_nonempty))).
Defined.

(** X5. With a price ceiling [c] selected, the average price of a non-empty
    filtered subset is at most [c]; when [c] is a whole number, as every
    ceiling the dropdown offers is, the amount shown by the average-price
    KPI is at most [c] too. *)
Theorem average_price_under_ceiling (g : Globals) (ng rt : string) (c : Q)
  (nonempty : filtered g ng rt (dollars c) <> []) :
  let o := outputs g ng rt (dollars c) in
  mean (map price (filtered g ng rt (dollars c))) <= c
  /\ (forall z : Z, c == inject_Z z ->
        exists p : Z, read_money (kpi_avg_price o) = Some p /\ (p <= z)%Z).
Proof.
  intros o.
  assert (M : mean (map price (filtered g ng rt (dollars c))) <= c).
  { apply mean_upper; [now apply map_nonempty |].
    intros x Hx. apply in_map_iff in Hx. destruct Hx as (r & <- & Hr).
    apply filtered_In in Hr. destruct Hr as [_ Hm].
    apply matches_iff in Hm. now destruct Hm as (_ & _ & Hc). }
  split; [exact M |].
  intros z Hz. subst o.
  rewrite kpi_avg_price_eq, read_money_format by assumption.
  eexists. split; [reflexivity |].
  apply round_half_even_le. now rewrite <- Hz.
Qed.

Lemma average_price_under_ceiling_witness :
  filtered sample "All" "All" (dollars 800) <> []
  /\ mean (map price (filtered sample "All" "All" (dollars 800))) <= 800.
Proof.
  split; [exact sample_nonempty |].
  exact (proj1 (average_price_under_ceiling sample "All" "All" 800
                  sample_nonempty)).
Defined.

(** ** The histogram (lines 378-403) *)


Lemma filter_true_on {A : Type} (f : A -> bool) (l : list A) :
  (forall x, In x l -> f x = true) -> filter f l = l.
Proof.
  induction l as [|a l IH]; intros H; simpl; [reflexivity |].
  rewrite (H a) by now left.
  f_equal. apply IH. intros x Hx. apply H. now right.
Qed.

(** ** Selections that match nothing (lines 356-367) *)

(** X8. After start-up a price ceiling of zero or less matches no listing,
    whatever the region and room type: the callback returns the "N/A"
    sentinel. *)
Theorem nonpositive_ceiling_is_empty (csv : DataFrame) (ng rt : string) (c : Q)
  (nonpos : c <= 0) :
  filtered (startup csv) ng rt (dollars c) = []
  /\ outputs (startup csv) ng rt (dollars c) = sentinel.
Proof.
  assert (E : filtered (startup csv) ng rt (dollars c) = []).
  { destruct (filtered (startup csv) ng rt (dollars c)) as [|r l] eqn:F;
      [reflexivity | exfalso].
    assert (Hr : In r (filtered (startup csv) ng rt (dollars c)))
      by (rewrite F; now left).
    apply filtered_In in Hr. destruct Hr as [Hd Hm].
    apply startup_positive in Hd.
    apply matches_iff in Hm. destruct Hm as (_ & _ & Hc). lra. }
  split; [exact E | now apply outputs_empty].
Qed.

Lemma nonpositive_ceiling_is_empty_witness :
  0 <= 0 /\ outputs (startup sample_csv) "All" "All" (dollars 0) = sentinel.
Proof.
  assert (H : 0 <= 0) by (unfold Qle; simpl; lia).
  split; [exact H |].
  exact (proj2 (nonpositive_ceiling_is_empty sample_csv "All" "All" 0 H)).
Defined.

(** ** The map (lines 471-490) *)

(** X9. When no row of a non-empty filtered subset has both coordinates, the
    map is still a map figure, with no point on it, not the "No data"
    placeholder, and the KPIs still show numbers. *)
Theorem map_without_coordinates (g : Globals) (ng rt : string)
  (pc : PriceCeiling)
  (nonempty : filtered g ng rt pc <> [])
  (nowhere : forall r, In r (filtered g ng rt pc) ->
                       latitude r = None \/ longitude r = None) :
  let o := outputs g ng rt pc in
  rows_of (listing_map o) = []
  /\ ~ placeholder (listing_map o)
  /\ read_int (kpi_num_listings o)
     = Some (Z.of_nat (List.length (filtered g ng rt pc))).
Proof.
  intros o. subst o.
  split; [| split].
  - unfold rows_of. rewrite map_trace by assumption.
    destruct (filter has_coordinates (filtered g ng rt pc)) as [|r l] eqn:F;
      [reflexivity | exfalso].
    assert (Hr : In r (filter has_coordinates (filtered g ng rt pc)))
      by (rewrite F; now left).
    apply filter_In in Hr. destruct Hr as [Hr Hc].
    apply has_coordinates_iff in Hc. destruct Hc as [H1 H2].
    destruct (nowhere r Hr); contradiction.
  - now apply map_not_placeholder.
  - rewrite kpi_num_listings_eq by assumption. apply read_int_format_d.
Qed.

Lemma map_without_coordinates_witness :
  filtered sample "Brooklyn" "All" none <> []
  /\ rows_of (listing_map (outputs sample "Brooklyn" "All" none)) = [].
Proof.
  assert (H : filtered sample "Brooklyn" "All" none <> [])
    by (vm_compute; discriminate).
  assert (W : forall r, In r (filtered sample "Brooklyn" "All" none) ->
                        latitude r = None \/ longitude r = None).
  { intros r [<- | []]. left. reflexivity. }
  split; [exact H |].
  exact (proj1 (map_without_coordinates sample "Brooklyn" "All" none H W)).
Defined.

(** ** Group statistics for the violin hover (lines 407-418) *)

Lemma lookup_keys {A : Type} (f : string -> A) (k : string) (ks : list string) :
  lookup k (map (fun x => (x, f x)) ks)
  = if mem_string k ks then Some (f k) else None.
Proof.
  induction ks as [|x ks IH]; [reflexivity |].
  cbn [map lookup mem_string existsb]. rewrite (String.eqb_sym k x).
  destruct (String.eqb_spec x k) as [-> | D]; [reflexivity |].
  exact IH.
Qed.

Lemma group_keys (data : DataFrame) (k : string) :
  In k (sorted String.leb (unique (dropna (map neighbourhood_group data))))
  <-> exists r, In r data /\ neighbourhood_group r = Some k.
Proof.
  destruct (names_spec (map neighbourhood_group data)) as (N1 & _).
  now rewrite N1, In_Some_column.
Qed.

Lemma lookup_group_stats (data : DataFrame) (k : string) :
  lookup k (group_stats data)
  = if mem_string k
         (sorted String.leb (unique (dropna (map neighbourhood_group data))))
    then Some (agg (group_prices k data)) else None.
Proof.
  unfold group_stats, group_prices.
  exact (lookup_keys
           (fun x => agg (map price
              (filter (fun r => cell_eqb (neighbourhood_group r) x) data)))
           k _).
Qed.

Lemma merge_left_In (data : DataFrame) (r : Listing) (s : option GroupStats) :
  In (r, s) (merge_left data (group_stats data)) ->
  In r data
  /\ match neighbourhood_group r with
     | Some k => s = Some (agg (group_prices k data))
     | None => s = None
     end.
Proof.
  unfold merge_left. intros H. apply in_map_iff in H.
  destruct H as (r' & E & Hr). injection E as -> <-.
  split; [exact Hr |].
  destruct (neighbourhood_group r) as [k|] eqn:G; [| reflexivity].
  rewrite lookup_group_stats.
  assert (M : mem_string k
                (sorted String.leb
                   (unique (dropna (map neighbourhood_group data)))) = true).
  { apply mem_string_iff, group_keys. now exists r. }
  now rewrite M.
Qed.

(** X10. In the frame handed to the violin chart every filtered row appears
    once, in order; a row with a region carries the statistics computed from
    the prices of all filtered rows of that region, and a row without a
    region carries none. *)
Theorem violin_rows_carry_group_stats (g : Globals) (ng rt : string)
  (pc : PriceCeiling)
  (nonempty : filtered g ng rt pc <> []) :
  let data := filtered g ng rt pc in
  let frame := violin_frame (price_violin (outputs g ng rt pc)) in
  map fst frame = data
  /\ forall r s, In (r, s) frame ->
       match neighbourhood_group r with
       | Some k => s = Some (agg (group_prices k data))
       | None => s = None
       end.
Proof.
  intros data frame. subst frame. unfold violin_frame.
  rewrite violin_trace by assumption. fold data.
  split; [apply map_fst_merge_left |].
  intros r s H. now apply merge_left_In in H.
Qed.

Lemma violin_rows_carry_group_stats_witness :
  filtered sample "All" "All" none <> []
  /\ map fst (violin_frame (price_violin (outputs sample "All" "All" none)))
     = filtered sample "All" "All" none.
Proof.
  assert (H : filtered sample "All" "All" none <> [])
    by (vm_compute; discriminate).
  split; [exact H |].
  exact (proj1 (violin_rows_carry_group_stats sample "All" "All" none H)).
Defined.

(** *** Order statistics *)

Lemma Qle_bool_total (x y : Q) : Qle_bool x y = true \/ Qle_bool y x = true.
Proof.
  destruct (Qlt_le_dec x y) as [H | H].
  - left. apply Qle_bool_iff. now apply Qlt_le_weak.
  - right. now apply Qle_bool_iff.
Qed.

Lemma sorted_Q_strongly (l : list Q) :
  StronglySorted Qleb_rel (sorted Qle_bool l).
Proof.
  apply Sorted_StronglySorted.
  - intros x y z Hxy Hyz. unfold Qleb_rel in *.
    rewrite Qle_bool_iff in *. now apply Qle_trans with y.
  - apply sorted_Sorted, Qle_bool_total.
Qed.

Lemma StronglySorted_nth (s : list Q) :
  StronglySorted Qleb_rel s ->
  forall i j, (i <= j < List.length s)%nat -> nth i s 0 <= nth j s 0.
Proof.
  induction 1 as [|a s Hs IH Ha]; intros i j Hij.
  - simpl in Hij. lia.
  - destruct i as [|i], j as [|j]; cbn [nth].
    + apply Qle_refl.
    + apply Qle_bool_iff.
      rewrite Forall_forall in Ha. apply Ha, nth_In.
      simpl in Hij. lia.
    + lia.
    + apply IH. simpl in Hij. lia.
Qed.

Lemma hd_nth (s : list Q) : hd 0 s = nth 0 s 0.
Proof. now destruct s. Qed.

Lemma last_nth_pred (s : list Q) :
  last s 0 = nth (List.length s - 1) s 0.
Proof.
  induction s as [|a [|b s] IH]; [reflexivity | reflexivity |].
  change (last (a :: b :: s) 0) with (last (b :: s) 0). rewrite IH.
  cbn [List.length]. replace (S (S (List.length s)) - 1)%nat
    with (S (S (List.length s) - 1)) by lia.
  reflexivity.
Qed.

Lemma sorted_length {A : Type} (le : A -> A -> bool) (l : list A) :
  List.length (sorted le l) = List.length l.
Proof. apply Permutation_length, sorted_perm. Qed.

(** The smallest and the largest price of a group bound every price of the
    group and are prices of the group. *)
Lemma agg_min_max (l : list Q) :
  l <> [] ->
  In (min_price (agg l)) l /\ In (max_price (agg l)) l
  /\ forall x, In x l -> min_price (agg l) <= x <= max_price (agg l).
Proof.
  intros Hne. unfold agg. cbn [agg_with min_price max_price].
  set (s := sorted Qle_bool l).
  assert (P : Permutation s l) by apply sorted_perm.
  assert (L : (0 < List.length s)%nat).
  { unfold s. rewrite sorted_length. destruct l; [contradiction | simpl; lia]. }
  pose proof (sorted_Q_strongly l) as S. fold s in S.
  rewrite hd_nth, last_nth_pred.
  split; [| split].
  - apply (Permutation_in _ P), nth_In. lia.
  - apply (Permutation_in _ P), nth_In. lia.
  - intros x Hx. apply (Permutation_in _ (Permutation_sym P)) in Hx.
    destruct (In_nth s x 0 Hx) as (i & Hi & <-).
    split; apply StronglySorted_nth; (exact S || lia).
Qed.

(** X11. Each row of the violin frame that carries statistics has its own
    price between the minimum and the maximum shown for its group, and both
    of these are prices of filtered rows of that same region. *)
Theorem violin_min_max_bound_price (g : Globals) (ng rt : string)
  (pc : PriceCeiling)
  (nonempty : filtered g ng rt pc <> []) :
  let data := filtered g ng rt pc in
  forall r st,
    In (r, Some st) (violin_frame (price_violin (outputs g ng rt pc))) ->
    min_price st <= price r <= max_price st
    /\ (exists lo, In lo data
                   /\ neighbourhood_group lo = neighbourhood_group r
                   /\ price lo = min_price st)
    /\ (exists hi, In hi data
                   /\ neighbourhood_group hi = neighbourhood_group r
                   /\ price hi = max_price st).
Proof.
  intros data r st H. unfold violin_frame in H.
  rewrite violin_trace in H by assumption. fold data in H.
  apply merge_left_In in H. destruct H as [Hr Hs].
  destruct (neighbourhood_group r) as [k|] eqn:G; [| discriminate].
  injection Hs as ->.
  assert (Hp : In (price r) (group_prices k data)).
  { unfold group_prices. apply in_map, filter_In. split; [exact Hr |].
    now apply cell_eqb_iff. }
  assert (Hne : group_prices k data <> []).
  { intros C. rewrite C in Hp. contradiction. }
  destruct (agg_min_max _ Hne) as (Hmin & Hmax & Hb).
  assert (Back : forall x, In x (group_prices k data) ->
                 exists row, In row data
                             /\ neighbourhood_group row = Some k
                             /\ price row = x).
  { intros x Hx. unfold group_prices in Hx. apply in_map_iff in Hx.
    destruct Hx as (row & E & Hrow). apply filter_In in Hrow.
    destruct Hrow as [Hrow Hk]. apply cell_eqb_iff in Hk.
    exists row. auto. }
  split; [now apply Hb | split; now apply Back].
Qed.

Lemma violin_min_max_bound_price_witness :
  filtered sample "All" "All" none <> []
  /\ forall r st,
       In (r, Some st)
          (violin_frame (price_violin (outputs sample "All" "All" none))) ->
       min_price st <= price r <= max_price st.
Proof.
  assert (H : filtered sample "All" "All" none <> [])
    by (vm_compute; discriminate).
  split; [exact H |].
  intros r st Hin.
  exact (proj1 (violin_min_max_bound_price sample "All" "All" none H r st Hin)).
Defined.

(** X13. When a region other than "All" is selected, every row of the violin
    frame is of that region and carries the statistics of the price column
    of the whole filtered subset. *)
Theorem one_region_one_group (g : Globals) (ng rt : string)
  (pc : PriceCeiling)
  (nonempty : filtered g ng rt pc <> [])
  (named : ng <> "All") :
  let data := filtered g ng rt pc in
  forall r s,
    In (r, s) (violin_frame (price_violin (outputs g ng rt pc))) ->
    neighbourhood_group r = Some ng /\ s = Some (agg (map price data)).
Proof.
  intros data r s H. unfold violin_frame in H.
  rewrite violin_trace in H by assumption. fold data in H.
  apply merge_left_In in H. destruct H as [Hr Hs].
  assert (G : forall x, In x data -> neighbourhood_group x = Some ng).
  { intros x Hx. apply filtered_In in Hx. destruct Hx as [_ Hm].
    apply matches_iff in Hm. destruct Hm as ([C | Hg] & _);
      [contradiction | exact Hg]. }
  rewrite (G r Hr) in Hs |- *. split; [reflexivity |].
  rewrite Hs. unfold group_prices. do 3 f_equal.
  apply filter_true_on. intros x Hx. apply cell_eqb_iff. now apply G.
Qed.

Lemma one_region_one_group_witness :
  filtered sample "Brooklyn" "All" none <> [] /\ "Brooklyn" <> "All"
  /\ forall r s,
       In (r, s)
          (violin_frame (price_violin (outputs sample "Brooklyn" "All" none))) ->
       neighbourhood_group r = Some "Brooklyn"
       /\ s = Some (agg (map price (filtered sample "Brooklyn" "All" none))).
Proof.
  assert (H : filtered sample "Brooklyn" "All" none <> [])
    by (vm_compute; discriminate).
  assert (D : "Brooklyn" <> "All") by discriminate.
  split; [exact H | split; [exact D |]].
  exact (one_region_one_group sample "Brooklyn" "All" none H D).
Defined.

(** X14. After start-up the category order handed to the violin chart is
    [neigh_groups], and it has a place for the region of every row of the
    violin frame. *)
Theorem violin_categories_cover (csv : DataFrame) (ng rt : string)
  (pc : PriceCeiling)
  (nonempty : filtered (startup csv) ng rt pc <> []) :
  let g := startup csv in
  let fig := price_violin (outputs g ng rt pc) in
  violin_categories fig = neigh_groups g
  /\ forall r s k, In (r, s) (violin_frame fig) ->
                   neighbourhood_group r = Some k ->
                   In k (violin_categories fig).
Proof.
  intros g fig. subst fig. unfold violin_categories, violin_frame.
  rewrite violin_trace by assumption.
  split; [reflexivity |].
  intros r s k H G. apply merge_left_In in H. destruct H as [Hr _].
  apply startup_neigh_groups. exists r. split; [| exact G].
  now apply filtered_incl in Hr.
Qed.

Lemma violin_categories_cover_witness :
  filtered (startup sample_csv) "All" "All" (dollars 800) <> []
  /\ violin_categories
       (price_violin (outputs (startup sample_csv) "All" "All" (dollars 800)))
     = neigh_groups (startup sample_csv).
Proof.
  split; [exact sample_nonempty |].
  exact (proj1 (violin_categories_cover sample_csv "All" "All" (dollars 800)
                  sample_nonempty)).
Defined.

(** ** Counting by region (lines 350-351, 370) *)

Lemma filtered_region (g : Globals) (k rt : string) (pc : PriceCeiling) :
  k <> "All" ->
  filtered g k rt pc
  = filter (fun r => cell_eqb (neighbourhood_group r) k)
      (filtered g "All" rt pc).
Proof.
  intros D. rewrite !filtered_as_filter, filter_filter.
  apply filter_ext. intros r. unfold matches, region_ok.
  apply String.eqb_neq in D. rewrite D. cbn [orb String.eqb].
  destruct (cell_eqb (neighbourhood_group r) k), (room_ok rt r),
    (price_ok pc r); reflexivity.
Qed.

Lemma list_sum_map_add {A : Type} (f h : A -> nat) (l : list A) :
  list_sum (map (fun x => f x + h x)%nat l)
  = (list_sum (map f l) + list_sum (map h l))%nat.
Proof. induction l as [|a l IH]; simpl; [reflexivity | lia]. Qed.

Lemma indicator_absent (c : option string) (ks : list string) :
  (forall k, In k ks -> c <> Some k) ->
  list_sum (map (fun k => if cell_eqb c k then 1 else 0)%nat ks) = 0%nat.
Proof.
  induction ks as [|x ks IH]; intros H; [reflexivity |].
  cbn [map list_sum fold_right]. fold (list_sum (map (fun k => if cell_eqb c k then 1 else 0)%nat ks)).
  rewrite IH by (intros k Hk; apply H; now right).
  destruct (cell_eqb c x) eqn:E; [| reflexivity].
  apply cell_eqb_iff in E. exfalso. apply (H x); [now left | exact E].
Qed.

Lemma indicator_present (k0 : string) (ks : list string) :
  NoDup ks -> In k0 ks ->
  list_sum (map (fun k => if cell_eqb (Some k0) k then 1 else 0)%nat ks) = 1%nat.
Proof.
  induction 1 as [|x ks Hx Hn IH]; intros Hin; [contradiction |].
  cbn [map list_sum fold_right].
  fold (list_sum (map (fun k => if cell_eqb (Some k0) k then 1 else 0)%nat ks)).
  destruct Hin as [-> | Hin].
  - rewrite indicator_absent.
    + cbn [cell_eqb]. now rewrite String.eqb_refl.
    + intros k Hk [= ->]. contradiction.
  - rewrite IH by assumption.
    destruct (cell_eqb (Some k0) x) eqn:E; [| reflexivity].
    apply cell_eqb_iff in E. injection E as ->. contradiction.
Qed.

(** Rows split by region: one part per listed name, and the rows without a
    region. *)
Lemma count_by_region (ks : list string) (l : DataFrame) :
  NoDup ks ->
  (forall r k, In r l -> neighbourhood_group r = Some k -> In k ks) ->
  List.length l
  = (list_sum
       (map (fun k =>
               List.length
                 (filter (fun r => cell_eqb (neighbourhood_group r) k) l)) ks)
     + List.length (filter null_region l))%nat.
Proof.
  intros Hn. induction l as [|r l IH]; intros Hc.
  - cbn [filter List.length].
    clear. induction ks as [|k ks IHk]; [reflexivity |].
    cbn [map list_sum fold_right]. unfold list_sum in IHk. lia.
  - assert (IH' := IH (fun r' k Hr => Hc r' k (or_intror Hr))).
    assert (E : list_sum
                  (map (fun k =>
                          List.length
                            (filter (fun x => cell_eqb (neighbourhood_group x) k)
                               (r :: l))) ks)
                = (list_sum
                     (map (fun k =>
                             if cell_eqb (neighbourhood_group r) k then 1 else 0)
                        ks)
                   + list_sum
                       (map (fun k =>
                               List.length
                                 (filter
                                    (fun x => cell_eqb (neighbourhood_group x) k)
                                    l)) ks))%nat).
    { rewrite <- list_sum_map_add. f_equal. apply map_ext. intros k.
      cbn [filter]. destruct (cell_eqb (neighbourhood_group r) k); reflexivity. }
    rewrite E. cbn [filter List.length]. unfold null_region at 1.
    destruct (neighbourhood_group r) as [k0|] eqn:G.
    + rewrite indicator_present; [| exact Hn |].
      * lia.
      * apply (Hc r k0); [now left | exact G].
    + rewrite indicator_absent by (intros k _; discriminate).
      cbn [List.length]. lia.
Qed.

(** X15. After start-up, provided no region is itself named "All", the
    listings counted under region "All" are those counted under each listed
    region, added up, plus the listings that have no region; room type and
    ceiling being the same throughout. *)
Theorem region_counts_add_up (csv : DataFrame) (rt : string)
  (pc : PriceCeiling)
  (proper : ~ In "All" (neigh_groups (startup csv))) :
  let g := startup csv in
  List.length (filtered g "All" rt pc)
  = (list_sum
       (map (fun k => List.length (filtered g k rt pc)) (neigh_groups g))
     + List.length (filter null_region (filtered g "All" rt pc)))%nat.
Proof.
  intros g.
  rewrite (count_by_region (neigh_groups g) (filtered g "All" rt pc)).
  - do 2 f_equal. apply map_ext_in. intros k Hk.
    symmetry. apply (f_equal (@List.length Listing)).
    apply filtered_region. intros ->. contradiction.
  - apply startup_NoDup.
  - intros r k Hr G. apply startup_neigh_groups. exists r.
    split; [| exact G]. now apply filtered_incl in Hr.
Qed.

Lemma region_counts_add_up_witness :
  ~ In "All" (neigh_groups (startup sample_csv))
  /\ List.length (filtered (startup sample_csv) "All" "All" none)
     = (list_sum
          (map (fun k =>
                  List.length (filtered (startup sample_csv) k "All" none))
             (neigh_groups (startup sample_csv)))
        + List.length
            (filter null_region
               (filtered (startup sample_csv) "All" "All" none)))%nat.
Proof.
  assert (H : ~ In "All" (neigh_groups (startup sample_csv))).
  { vm_compute. intros [C | [C | []]]; discriminate. }
  split; [exact H |].
  exact (region_counts_add_up sample_csv "All" none H).
Defined.

(** * The rows the figures draw *)

(** ** Traces by region *)

Lemma has_region_iff (r : Listing) :
  has_region r = true <-> neighbourhood_group r <> None.
Proof.
  unfold has_region, null_region.
  destruct (neighbourhood_group r); simpl; split; congruence.
Qed.

Lemma trace_names_In (orders : list string) (d : DataFrame) (k : string) :
  In k (trace_names orders d) <->
  exists r, In r d /\ neighbourhood_group r = Some k.
Proof.
  unfold trace_names. rewrite filter_In, mem_string_iff.
  unfold unique. rewrite !unique_from_In, in_app_iff, unique_from_In.
  rewrite In_dropna, In_Some_column.
  cbn [In]. tauto.
Qed.

Lemma trace_names_NoDup (orders : list string) (d : DataFrame) :
  NoDup (trace_names orders d).
Proof. apply NoDup_filter, unique_from_NoDup. Qed.

Lemma filter_other_region (k k0 : string) (r : Listing) (d : DataFrame) :
  neighbourhood_group r = Some k0 -> k <> k0 ->
  filter (fun x => cell_eqb (neighbourhood_group x) k) (r :: d)
  = filter (fun x => cell_eqb (neighbourhood_group x) k) d.
Proof.
  intros G D. cbn [filter]. rewrite G. cbn [cell_eqb].
  destruct (String.eqb_spec k0 k) as [E | _]; [congruence | reflexivity].
Qed.

Lemma blocks_unchanged (ks : list string) (r : Listing) (d : DataFrame) :
  (forall k, In k ks -> neighbourhood_group r <> Some k) ->
  map (fun k => filter (fun x => cell_eqb (neighbourhood_group x) k) (r :: d)) ks
  = map (fun k => filter (fun x => cell_eqb (neighbourhood_group x) k) d) ks.
Proof.
  intros H. apply map_ext_in. intros k Hk. cbn [filter].
  destruct (cell_eqb (neighbourhood_group r) k) eqn:E; [| reflexivity].
  apply cell_eqb_iff in E. exfalso. now apply (H k).
Qed.

(** A row with a region joins the block of that region and no other. *)
Lemma blocks_insert (ks : list string) (k0 : string) (r : Listing)
  (d : DataFrame) :
  NoDup ks -> In k0 ks -> neighbourhood_group r = Some k0 ->
  Permutation
    (List.concat
       (map (fun k => filter (fun x => cell_eqb (neighbourhood_group x) k)
                        (r :: d)) ks))
    (r :: List.concat
            (map (fun k => filter (fun x => cell_eqb (neighbourhood_group x) k)
                             d) ks)).
Proof.
  intros Hn. induction Hn as [|k ks Hk Hn IH]; intros Hin G; [contradiction |].
  cbn [map List.concat].
  destruct (string_dec k k0) as [-> | D].
  - rewrite blocks_unchanged.
    + cbn [filter]. rewrite G. cbn [cell_eqb]. rewrite String.eqb_refl.
      reflexivity.
    + intros k Hin' C. rewrite G in C. injection C as ->. contradiction.
  - rewrite (filter_other_region k k0 r d G D).
    destruct Hin as [C | Hin]; [contradiction |].
    rewrite (IH Hin G). symmetry. apply Permutation_middle.
Qed.

Lemma blocks_perm (ks : list string) (d : DataFrame) :
  NoDup ks ->
  (forall r k, In r d -> neighbourhood_group r = Some k -> In k ks) ->
  Permutation
    (List.concat
       (map (fun k => filter (fun x => cell_eqb (neighbourhood_group x) k) d)
          ks))
    (filter has_region d).
Proof.
  intros Hn. induction d as [|r d IH]; intros Hc.
  - cbn [filter]. clear. induction ks as [|k ks IH]; [reflexivity | exact IH].
  - assert (IH' := IH (fun r' k Hr => Hc r' k (or_intror Hr))).
    destruct (neighbourhood_group r) as [k0|] eqn:G.
    + assert (E : filter has_region (r :: d) = r :: filter has_region d).
      { cbn [filter]. unfold has_region at 1, null_region. now rewrite G. }
      rewrite E, (blocks_insert ks k0 r d Hn); [| | exact G].
      * now constructor.
      * apply (Hc r k0); [now left | exact G].
    + assert (E : filter has_region (r :: d) = filter has_region d).
      { cbn [filter]. unfold has_region at 1, null_region. now rewrite G. }
      rewrite E, blocks_unchanged; [exact IH' |].
      intros k _. rewrite G. discriminate.
Qed.

(** The rows on the traces are the handed rows that have a region, each as
    often as it was handed. *)
Lemma traces_perm (orders : list string) (d : DataFrame) :
  Permutation (List.concat (map snd (px_traces orders d)))
    (filter has_region d).
Proof.
  unfold px_traces. rewrite map_map. cbn [snd].
  apply blocks_perm; [apply trace_names_NoDup |].
  intros r k Hr G. apply trace_names_In. now exists r.
Qed.

Lemma drawn_perm (f : Figure) :
  Permutation (drawn_rows f) (filter has_region (rows_of f)).
Proof.
  unfold drawn_rows, rows_of.
  destruct (trace f); [reflexivity | apply traces_perm ..].
Qed.

Lemma drawn_In (f : Figure) (r : Listing) :
  In r (drawn_rows f) <->
  In r (rows_of f) /\ neighbourhood_group r <> None.
Proof.
  rewrite <- has_region_iff, <- filter_In.
  split; apply Permutation_in;
    [apply drawn_perm | apply Permutation_sym, drawn_perm].
Qed.


Lemma base_cap_spec (pc : PriceCeiling) : base_cap pc = spec_cap pc.
Proof. destruct pc; [reflexivity | apply py_min_Qmin]. Qed.

Section Drawn.
Variables (num : Numerics) (g : Globals) (ng rt : string) (pc : PriceCeiling).
Hypothesis nonempty : filtered g ng rt pc <> [].

Let data := filtered g ng rt pc.
Let o := outputs_with num g ng rt pc.

Lemma hist_handed :
  rows_of (price_hist o)
  = filter (fun r => Qle_bool (price r) (spec_cap pc)) data.
Proof.
  subst data o. unfold rows_of. rewrite hist_trace_with by assumption.
  now rewrite base_cap_spec.
Qed.

Lemma violin_handed : rows_of (price_violin o) = data.
Proof.
  subst data o. unfold rows_of. rewrite violin_trace_with by assumption.
  apply map_fst_merge_left.
Qed.



Lemma violin_drawn_In (r : Listing) :
  In r (drawn_rows (price_violin o)) <->
  In r data /\ neighbourhood_group r <> None.
Proof. now rewrite drawn_In, violin_handed. Qed.

End Drawn.

(** ** The map and the rows without coordinates *)




(** ** The histogram and the price cap *)


(** ** The histogram under a low ceiling *)



(** X7. After start-up the histogram's x axis of a non-empty filtered subset
    has the fixed range from 0 to the cap (800 without a ceiling, the smaller
    of 800 and the ceiling with one), and every row handed to the histogram
    or drawn by it has a price above 0 and at most the cap. *)
Theorem hist_rows_within_axis (num : Numerics) (csv : DataFrame)
  (ng rt : string) (pc : PriceCeiling)
  (nonempty : filtered (startup csv) ng rt pc <> []) :
  let o := outputs_with num (startup csv) ng rt pc in
  let cap := match pc with none => 800 | dollars c => Qmin 800 c end in
  range (xaxis (price_hist o)) = Some (0, cap)
  /\ fixedrange (xaxis (price_hist o)) = true
  /\ (forall r, In r (rows_of (price_hist o)) -> 0 < price r <= cap)
  /\ (forall r, In r (drawn_rows (price_hist o)) -> 0 < price r <= cap).
Proof.
  intros o cap. subst o.
  assert (Ec : cap = spec_cap pc) by reflexivity. rewrite Ec.
  destruct (hist_xaxis_with num (startup csv) ng rt pc nonempty) as [R F].
  assert (H : forall r,
            In r (rows_of (price_hist (outputs_with num (startup csv) ng rt pc)))
            -> 0 < price r <= spec_cap pc).
  { intros r Hr. rewrite hist_handed in Hr by assumption.
    apply filter_In in Hr. destruct Hr as [Hr Hc].
    split; [| now apply Qle_bool_iff].
    apply (startup_positive csv). now apply filtered_incl in Hr. }
  split; [now rewrite R, base_cap_spec |].
  split; [exact F | split; [exact H |]].
  intros r Hr. apply drawn_In in Hr. now apply H.
Qed.

Lemma hist_rows_within_axis_witness :
  filtered (startup sample_csv) "All" "All" (dollars 800) <> []
  /\ range (xaxis (price_hist
              (outputs_with exact (startup sample_csv) "All" "All"
                 (dollars 800))))
     = Some (0, Qmin 800 800).
Proof.
  split; [exact sample_nonempty |].
  exact (proj1 (hist_rows_within_axis exact sample_csv "All" "All"
                  (dollars 800) sample_nonempty)).
Defined.
